(** * A model of [function<R(Args...)>] from src/function.h

    The container is a [storage]: a descriptor pointer and an inline
    buffer the size of a pointer.  Descriptors are compared by identity;
    [None] plays the shared empty descriptor and [Some t] the descriptor
    [get_descriptor<T>()] of the concrete type [t].  The world holds the
    live storages (containers and the temporaries of [swap] and of the
    assignments) by address, and the heap of the large payloads. *)

From Stdlib Require Import ZArith.
From stdpp Require Import base gmap.

(** The concrete callable types that may be stored, for one signature
    [R(Args...)] ([Args...] packed as [Arg]).  A callable object of type
    [t] is a value of [val t]; its [operator()] may update it.  The
    layout facts feed [fits_small]; [copy_throws]/[move_throws] say when
    the copy or move constructor of [T] raises.  A type whose move is
    declared non-throwing never raises on move. *)
Class callable_universe := {
  Tid : Type;
  Tid_eq_dec :: EqDecision Tid;
  val : Tid -> Type;
  Arg : Type;
  Ret : Type;
  call : forall t, val t -> Arg -> Ret * val t;
  size_of : Tid -> nat;
  align_of : Tid -> nat;
  nothrow_move : Tid -> bool;
  copy_throws : forall t, val t -> bool;
  move_throws : forall t, val t -> bool;
  nothrow_move_spec : forall t v, nothrow_move t = true -> move_throws t v = false
}.

Section Model.
Context {U : callable_universe}.

(** [sizeof(container_t)] and [alignof(void* )] on a 64-bit target. *)
Definition ptr_size : nat := 8.

(** [fits_small<T>] *)
Definition fits_small (t : Tid) : bool :=
  (size_of t <=? ptr_size) && (Nat.modulo ptr_size (align_of t) =? 0)
  && nothrow_move t.

(** A live object of some concrete callable type. *)
Definition obj : Type := { t : Tid & val t }.
Definition obj_type (o : obj) : Tid := projT1 o.

Definition call_obj (o : obj) (a : Arg) : Ret * obj :=
  let c := call (projT1 o) (projT2 o) a in
  (fst c, existT (projT1 o) (snd c)).

(** The bytes of [small]: indeterminate (never written, or the object
    in them was destroyed), an object of some type placed in them, or a
    pointer to a heap object. *)
Inductive cell : Type :=
  | Garbage
  | Inline (o : obj)
  | Ptr (l : nat).

(** A descriptor pointer: [None] is [get_empty_func_descriptor()],
    [Some t] is [get_descriptor<t>()]. *)
Definition desc_ptr : Type := option Tid.

Definition get_empty_func_descriptor : desc_ptr := None.
Definition get_descriptor (t : Tid) : desc_ptr := Some t.

Record storage : Type := mk_storage { desc : desc_ptr; small : cell }.

Record world : Type := mk_world {
  cont : gmap nat storage;   (** live storages, by address *)
  heap : gmap nat obj;       (** heap objects, by address *)
  nextc : nat;               (** next free address for a local *)
  nexth : nat;               (** next free heap address *)
  oom : list bool            (** [true]: this allocation raises bad_alloc *)
}.

Definition set_cont (c : gmap nat storage) (w : world) : world :=
  mk_world c (heap w) (nextc w) (nexth w) (oom w).
Definition set_heap (h : gmap nat obj) (w : world) : world :=
  mk_world (cont w) h (nextc w) (nexth w) (oom w).

(** Exceptions: [bad_function_call], [std::bad_alloc], and whatever the
    copy or move constructor of a payload type raises. *)
Inductive exn : Type := BadFunctionCall | BadAlloc | UserThrow.

(** [Stuck]: undefined behaviour, a failed assertion, or
    [std::terminate] from an exception leaving a [noexcept] function. *)
Inductive res (X : Type) : Type :=
  | Ok (x : X) (w : world)
  | Exn (e : exn) (w : world)
  | Stuck.
Arguments Ok {X}. Arguments Exn {X}. Arguments Stuck {X}.

Definition M (X : Type) : Type := world -> res X.

Definition ret {X} (x : X) : M X := fun w => Ok x w.
Definition bind {X Y} (m : M X) (k : X -> M Y) : M Y := fun w =>
  match m w with
  | Ok x w' => k x w'
  | Exn e w' => Exn e w'
  | Stuck => Stuck
  end.
Definition throw {X} (e : exn) : M X := fun w => Exn e w.
Definition stuck {X} : M X := fun _ => Stuck.
Definition catch {X} (m : M X) (h : exn -> M X) : M X := fun w =>
  match m w with
  | Exn e w' => h e w'
  | r => r
  end.
Definition noexcept {X} (m : M X) : M X := fun w =>
  match m w with
  | Exn _ _ => Stuck
  | r => r
  end.
Definition assert (b : bool) : M unit := if b then ret tt else stuck.

End Model.

Arguments Ok {U X} x w.
Arguments Exn {U X} e w.
Arguments Stuck {U X}.

Notation "'let*' x ':=' c 'in' k" := (bind c (fun x => k))
  (at level 200, x name, c at level 100, k at level 200).

Section Function.
Context {U : callable_universe}.

(** ** Primitive memory operations *)

Definition get_st (p : nat) : M storage := fun w =>
  match cont w !! p with Some s => Ok s w | None => Stuck end.
Definition put_st (p : nat) (s : storage) : M unit := fun w =>
  Ok tt (set_cont (<[p := s]> (cont w)) w).
Definition set_desc (p : nat) (d : desc_ptr) : M unit :=
  let* s := get_st p in put_st p (mk_storage d (small s)).
Definition set_small (p : nat) (c : cell) : M unit :=
  let* s := get_st p in put_st p (mk_storage (desc s) c).
Definition free_st (p : nat) : M unit := fun w =>
  Ok tt (set_cont (delete p (cont w)) w).
(** The address of a new local object. *)
Definition fresh_addr : M nat := fun w =>
  Ok (nextc w) (mk_world (cont w) (heap w) (S (nextc w)) (nexth w) (oom w)).

(** [operator new]: a fresh block, or [std::bad_alloc]. *)
Definition alloc_loc : M nat := fun w =>
  match oom w with
  | true :: rest => Exn BadAlloc (mk_world (cont w) (heap w) (nextc w) (nexth w) rest)
  | false :: rest => Ok (nexth w) (mk_world (cont w) (heap w) (nextc w) (S (nexth w)) rest)
  | [] => Ok (nexth w) (mk_world (cont w) (heap w) (nextc w) (S (nexth w)) [])
  end.
Definition heap_get (l : nat) : M obj := fun w =>
  match heap w !! l with Some o => Ok o w | None => Stuck end.
Definition heap_put (l : nat) (o : obj) : M unit := fun w =>
  Ok tt (set_heap (<[l := o]> (heap w)) w).
Definition heap_free (l : nat) : M unit :=
  let* _ := heap_get l in fun w => Ok tt (set_heap (delete l (heap w)) w).

(** [new T(init)]: the block is allocated before the initializer runs;
    if the constructor raises, the block is released again. *)
Definition new_obj (mk : M obj) : M nat :=
  let* l := alloc_loc in
  let* o := mk in
  let* _ := heap_put l o in
  ret l.

Definition copy_construct (o : obj) : M obj :=
  if copy_throws (projT1 o) (projT2 o) then throw UserThrow else ret o.
Definition move_construct (o : obj) : M obj :=
  if move_throws (projT1 o) (projT2 o) then throw UserThrow else ret o.

(** A [T*]: into the inline buffer of the storage at [p], or a heap block. *)
Inductive ptr : Type := PInline (p : nat) | PHeap (l : nat).

(** [storage::get<T>]: the buffer itself, or the pointer stored in it. *)
Definition get (t : Tid) (p : nat) : M ptr :=
  if fits_small t then ret (PInline p)
  else let* s := get_st p in
       match small s with Ptr l => ret (PHeap l) | _ => stuck end.

(** Reading [*q] as a [T]: defined only on a live object of type [T]. *)
Definition load (t : Tid) (q : ptr) : M obj :=
  let* o := match q with
            | PInline p =>
                let* s := get_st p in
                match small s with Inline o => ret o | _ => stuck end
            | PHeap l => heap_get l
            end in
  if decide (obj_type o = t) then ret o else stuck.

Definition store (q : ptr) (o : obj) : M unit :=
  match q with
  | PInline p => set_small p (Inline o)
  | PHeap l => heap_put l o
  end.

(** ** Descriptors *)

Record type_descriptor : Type := {
  copy : nat -> nat -> M unit;      (** dst, src *)
  move : nat -> nat -> M unit;      (** dst, src *)
  invoke : nat -> Arg -> M Ret;
  destroy : nat -> M unit
}.

Definition is_empty_desc (d : desc_ptr) : bool :=
  bool_decide (d = get_empty_func_descriptor).

Definition empty_func_descriptor : type_descriptor := {|
  copy := fun dst src =>
    let* d := get_st dst in
    let* _ := assert (is_empty_desc (desc d)) in
    let* s := get_st src in
    assert (is_empty_desc (desc s));
  move := fun dst src => noexcept (
    let* d := get_st dst in
    let* _ := assert (is_empty_desc (desc d)) in
    let* s := get_st src in
    assert (is_empty_desc (desc s)));
  invoke := fun _ _ => throw BadFunctionCall;
  destroy := fun _ => ret tt
|}.

(** The [destroy] entry of [get_descriptor<T>()]. *)
Definition destroy_fn (t : Tid) (dst : nat) : M unit := noexcept (
  if fits_small t then
    let* q := get t dst in
    let* _ := load t q in
    set_small dst Garbage
  else
    let* q := get t dst in
    let* _ := load t q in
    match q with PHeap l => heap_free l | PInline _ => stuck end).

Definition destroy_of (d : desc_ptr) : nat -> M unit :=
  match d with
  | None => destroy empty_func_descriptor
  | Some t => destroy_fn t
  end.

Definition descriptor (t : Tid) : type_descriptor := {|
  copy := fun dst src =>
    let* d := get_st dst in
    let* _ := assert (is_empty_desc (desc d)) in
    let* _ := (if fits_small t then
                 let* q := get t src in
                 let* o := load t q in
                 let* o' := copy_construct o in
                 set_small dst (Inline o')
               else
                 let* l := new_obj (let* q := get t src in
                                    let* o := load t q in
                                    copy_construct o) in
                 set_small dst (Ptr l)) in
    let* s := get_st src in
    set_desc dst (desc s);
  move := fun dst src => noexcept (
    let* d := get_st dst in
    let* _ := assert (is_empty_desc (desc d)) in
    let* _ := (if fits_small t then
                 let* q := get t src in
                 let* o := load t q in
                 let* o' := move_construct o in
                 let* _ := set_small dst (Inline o') in
                 let* s := get_st src in
                 destroy_of (desc s) src
               else
                 let* q := get t src in
                 match q with PHeap l => set_small dst (Ptr l) | PInline _ => stuck end) in
    let* s := get_st src in
    let* _ := set_desc dst (desc s) in
    let* _ := set_desc src get_empty_func_descriptor in
    let* s' := get_st src in
    assert (is_empty_desc (desc s')));
  invoke := fun dst a =>
    let* q := get t dst in
    let* o := load t q in
    let* _ := store q (snd (call_obj o a)) in
    ret (fst (call_obj o a));
  destroy := destroy_fn t
|}.

(** Dispatch through a descriptor pointer. *)
Definition table (d : desc_ptr) : type_descriptor :=
  match d with
  | None => empty_func_descriptor
  | Some t => descriptor t
  end.

(** [type_descriptor::init]: the descriptor is installed first, then
    the payload is constructed. *)
Definition init (t : Tid) (v : val t) (p : nat) : M unit :=
  let* _ := set_desc p (get_descriptor t) in
  if fits_small t then
    let* o := move_construct (existT t v) in
    set_small p (Inline o)
  else
    let* l := new_obj (move_construct (existT t v)) in
    set_small p (Ptr l).

(** ** [storage] *)

Definition storage_ctor (p : nat) : M unit :=
  put_st p (mk_storage get_empty_func_descriptor Garbage).

Definition storage_dtor (p : nat) : M unit :=
  let* s := get_st p in
  let* _ := destroy (table (desc s)) p in
  free_st p.

Definition storage_swap (this other : nat) : M unit :=
  let* tmp := fresh_addr in
  let* _ := storage_ctor tmp in
  let* s := get_st this in
  let* _ := move (table (desc s)) tmp this in
  let* s := get_st other in
  let* _ := move (table (desc s)) this other in
  let* s := get_st tmp in
  let* _ := move (table (desc s)) other tmp in
  storage_dtor tmp.

(** ** [function<R(Args...)>]; a container is named by the address of
    its storage. *)

(** [function() = default] *)
Definition fn_default (p : nat) : M unit := storage_ctor p.

(** [~function() = default] *)
Definition fn_dtor (p : nat) : M unit := storage_dtor p.

(** [function(function const&)]: delegates to [function()], so the
    object is destroyed if the copy raises. *)
Definition fn_copy_ctor (p other : nat) : M unit :=
  let* _ := fn_default p in
  catch (let* so := get_st other in copy (table (desc so)) p other)
        (fun e => let* _ := fn_dtor p in throw e).

(** [function(function&&) noexcept] *)
Definition fn_move_ctor (p other : nat) : M unit := noexcept (
  let* _ := fn_default p in
  let* so := get_st other in
  move (table (desc so)) p other).

(** [function(F f)]: the storage member is built first; if [init]
    raises, the member's destructor runs before the exception leaves. *)
Definition fn_from (t : Tid) (v : val t) (p : nat) : M unit :=
  let* _ := storage_ctor p in
  catch (init t v p) (fun e => let* _ := storage_dtor p in throw e).

(** [function::swap] *)
Definition fn_swap (p other : nat) : M unit := noexcept (storage_swap p other).

(** [operator=(function const&)] *)
Definition fn_copy_assign (p other : nat) : M unit :=
  if decide (p = other) then ret tt else
  let* tmp := fresh_addr in
  let* _ := fn_copy_ctor tmp other in
  let* _ := fn_swap p tmp in
  fn_dtor tmp.

(** [operator=(function&&) noexcept] *)
Definition fn_move_assign (p other : nat) : M unit := noexcept (
  if decide (p = other) then ret tt else
  let* tmp := fresh_addr in
  let* _ := fn_move_ctor tmp other in
  let* _ := fn_swap p tmp in
  fn_dtor tmp).

(** [apply] *)
Definition fn_apply (p : nat) (a : Arg) : M Ret :=
  let* s := get_st p in
  invoke (table (desc s)) p a.

(** [operator()] forwards to [apply]. *)
Definition fn_call (p : nat) (a : Arg) : M Ret := fn_apply p a.

(** [target<F>() const] *)
Definition fn_target (t : Tid) (p : nat) : M (option ptr) :=
  let* s := get_st p in
  if decide (desc s = get_descriptor t) then
    let* q := get t p in ret (Some q)
  else ret None.

(** [explicit operator bool] *)
Definition fn_bool (p : nat) : M bool :=
  let* s := get_st p in
  ret (negb (is_empty_desc (desc s))).

(** ** Observations *)

(** The object the bytes of [s] hold when read as a [t], if they hold one. *)
Definition payload (h : gmap nat obj) (t : Tid) (s : storage) : option obj :=
  let o := if fits_small t then
             match small s with Inline o => Some o | _ => None end
           else
             match small s with Ptr l => h !! l | _ => None end in
  match o with
  | Some o => if decide (obj_type o = t) then Some o else None
  | None => None
  end.

(** What the container at [p] holds: [Some None] when it is empty,
    [Some (Some o)] when its payload is the object [o] of the type its
    descriptor names, [None] when [p] is not a well-formed container. *)
Definition contents (w : world) (p : nat) : option (option obj) :=
  match cont w !! p with
  | None => None
  | Some s =>
      match desc s with
      | None => Some None
      | Some t => match payload (heap w) t s with
                  | Some o => Some (Some o)
                  | None => None
                  end
      end
  end.

(** The heap block owned by the container at [p], if any. *)
Definition owned_block (w : world) (p : nat) : option nat :=
  match cont w !! p with
  | Some (mk_storage (Some t) (Ptr l)) => if fits_small t then None else Some l
  | _ => None
  end.

(** The outcome of a run, forgetting the final world. *)
Inductive outcome (X : Type) : Type :=
  | Returns (x : X) | Raises (e : exn) | Undefined.
Arguments Returns {X}. Arguments Raises {X}. Arguments Undefined {X}.

Definition observe {X} (r : res X) : outcome X :=
  match r with
  | Ok x _ => Returns x
  | Exn e _ => Raises e
  | Stuck => Undefined
  end.

Definition succeeds {X} (r : res X) : bool :=
  match r with Ok _ _ => true | _ => false end.

(** What invoking a container with contents [c] on [a] yields. *)
Definition expected_call (c : option obj) (a : Arg) : outcome Ret :=
  match c with
  | None => Raises BadFunctionCall
  | Some o => Returns (fst (call_obj o a))
  end.

(** [target<F>() != nullptr] *)
Definition fn_target_nonnull (t : Tid) (p : nat) : M bool :=
  let* r := fn_target t p in
  ret (bool_decide (is_Some r)).

(** No live storage at or above the next local address. *)
Definition locals_fresh (w : world) : Prop :=
  forall q, nextc w <= q -> cont w !! q = None.

End Function.

Arguments Returns {X} x.
Arguments Raises {X} e.
Arguments Undefined {X}.

(** ** A concrete signature [int(int)] and four callable types *)
Module Demo.

(** [Adder]: [[k](int a) { return k + a; }], four bytes.
    [Pair]: [[x, y](int a) { return x * a + y; }], 16 bytes, heap-stored.
    [Counter]: [[n](int a) mutable { return n++ + a; }], eight bytes.
    [Fragile]: an [int]-sized functor whose copy constructor raises
    and whose move constructor is not declared [noexcept]. *)
Inductive ty : Type := Adder | Pair | Counter | Fragile.

#[export] Instance ty_eq_dec : EqDecision ty.
Proof. solve_decision. Defined.

Definition ty_val (t : ty) : Type :=
  match t with
  | Adder => Z
  | Pair => Z * Z
  | Counter => Z
  | Fragile => Z
  end.

Definition ty_call (t : ty) : ty_val t -> Z -> Z * ty_val t :=
  match t with
  | Adder => fun k a => ((k + a)%Z, k)
  | Pair => fun xy a => ((fst xy * a + snd xy)%Z, xy)
  | Counter => fun n a => ((n + a)%Z, (n + 1)%Z)
  | Fragile => fun k a => ((k - a)%Z, k)
  end.

Definition ty_size (t : ty) : nat :=
  match t with Adder => 4 | Pair => 16 | Counter => 8 | Fragile => 4 end.
Definition ty_align (t : ty) : nat :=
  match t with Adder => 4 | Pair => 8 | Counter => 8 | Fragile => 4 end.
Definition ty_nothrow_move (t : ty) : bool :=
  match t with Fragile => false | _ => true end.
Definition ty_copy_throws (t : ty) (_ : ty_val t) : bool :=
  match t with Fragile => true | _ => false end.
Definition ty_move_throws (t : ty) (_ : ty_val t) : bool := false.

#[export] Instance int_int : callable_universe := {|
  Tid := ty;
  val := ty_val;
  Arg := Z;
  Ret := Z;
  call := ty_call;
  size_of := ty_size;
  align_of := ty_align;
  nothrow_move := ty_nothrow_move;
  copy_throws := ty_copy_throws;
  move_throws := ty_move_throws;
  nothrow_move_spec := fun _ _ _ => eq_refl
|}.

(** Containers live at addresses below 10; locals are numbered from 10. *)
Definition w0 : world := mk_world ∅ ∅ 10 0 [].

End Demo.

(** * Proofs *)

(** Symbolic execution: unfold the primitive steps and rewrite with the
    facts at hand (layout, exception flags, map lookups). *)
Ltac rw_facts := match goal with
 | H : fits_small ?t = _ |- context [fits_small ?t] => rewrite H
 | H : move_throws ?a ?b = _ |- context [move_throws ?a ?b] => rewrite H
 | H : copy_throws ?a ?b = _ |- context [copy_throws ?a ?b] => rewrite H
 | H : cont ?w !! ?p = _ |- context [cont ?w !! ?p] => rewrite H
 | H : heap ?w !! ?p = _ |- context [heap ?w !! ?p] => rewrite H
 | H : oom ?w = _ |- context [oom ?w] => rewrite H
 | |- context [<[?i:=_]> _ !! ?i] => rewrite lookup_insert_eq
 | |- context [<[?i:=_]> _ !! ?j] => rewrite lookup_insert_ne by (congruence || lia)
 | |- context [delete ?i _ !! ?i] => rewrite lookup_delete_eq
 | |- context [delete ?i _ !! ?j] => rewrite lookup_delete_ne by (congruence || lia)
 | |- context [decide ?P] => first [rewrite (decide_True (P:=P)) by (reflexivity || (unfold obj_type in *; simpl in *; assumption)) | rewrite (decide_False (P:=P)) by (unfold obj_type in *; simpl in *; assumption)]
 end.
Ltac go := repeat (first [
  progress (unfold bind, ret, stuck, throw, get_st, put_st, set_desc,
              set_small, free_st, heap_get, heap_put, heap_free, get, load,
              store, noexcept, catch, assert, move_construct, copy_construct,
              fresh_addr, alloc_loc, new_obj, storage_ctor, storage_dtor,
              destroy_of, destroy_fn, payload; simpl)
  | rw_facts ]).

Ltac finish := repeat split; try done;
  try (intros ? ?; unfold owned_block, contents in *; go; (reflexivity || congruence)).

Section Proofs.
Context {U : callable_universe}.

Lemma fits_small_nothrow (t : Tid) (v : val t) :
  fits_small t = true -> move_throws t v = false.
Proof.
  unfold fits_small. intros H. apply andb_true_iff in H as [_ H].
  by apply nothrow_move_spec.
Qed.

Lemma contents_empty (w : world) (p : nat) :
  contents w p = Some None <-> exists s, cont w !! p = Some s /\ desc s = None.
Proof.
  unfold contents. split.
  - destruct (cont w !! p) as [[[t|] sm]|]; try discriminate.
    + intros H. repeat case_match; discriminate.
    + intros _. by eexists.
  - intros ([d sm] & -> & Hd). simpl in Hd. by subst.
Qed.

Lemma move_spec (w : world) (dst src : nat) (ss : storage) (c : option obj) :
  dst <> src ->
  contents w dst = Some None ->
  cont w !! src = Some ss -> contents w src = Some c ->
  exists w', move (table (desc ss)) dst src w = Ok tt w' /\
    contents w' dst = Some c /\ contents w' src = Some None /\
    owned_block w' dst = owned_block w src /\ owned_block w' src = None /\
    heap w' = heap w /\ nextc w' = nextc w /\ nexth w' = nexth w /\ oom w' = oom w /\
    (forall q, q <> dst -> q <> src -> cont w' !! q = cont w !! q).
Proof.
  intros Hne Hd Es Hc.
  apply contents_empty in Hd as ([dd dsm] & Ed & Hdd). simpl in Hdd; subst dd.
  unfold contents, owned_block in *. rewrite Es in Hc |- *.
  destruct ss as [[t|] sm]; simpl in *.
  - unfold payload in Hc. simpl in Hc.
    destruct (fits_small t) eqn:Ef; destruct sm as [|o|l]; simpl in Hc; try discriminate.
    + destruct (decide (obj_type o = t)) as [Ht|]; [|discriminate]. injection Hc as <-.
      assert (Hmt : move_throws (projT1 o) (projT2 o) = false)
        by (apply fits_small_nothrow; unfold obj_type in Ht; by rewrite Ht).
      eexists. split. { go. reflexivity. }
      go. repeat split; try reflexivity. intros q H1 H2. go. reflexivity.
    + destruct (heap w !! l) as [o|] eqn:El; [|discriminate].
      destruct (decide (obj_type o = t)) as [Ht|]; [|discriminate]. injection Hc as <-.
      eexists. split. { go. reflexivity. }
      go. repeat split; try reflexivity. intros q H1 H2. go. reflexivity.
  - injection Hc as <-.
    eexists. split. { go. reflexivity. }
    go. repeat split; auto.
Qed.

Lemma bind_Ok_eq {X Y} (m : M X) (k : X -> M Y) (w : world) (x : X) (w' : world) :
  m w = Ok x w' -> bind m k w = k x w'.
Proof. unfold bind. by intros ->. Qed.

Lemma get_st_ok (w : world) (p : nat) (s : storage) :
  cont w !! p = Some s -> get_st p w = Ok s w.
Proof. unfold get_st. by intros ->. Qed.

Lemma contents_live (w : world) (p : nat) (c : option obj) :
  contents w p = Some c -> exists s, cont w !! p = Some s.
Proof. unfold contents. destruct (cont w !! p); [by eexists|discriminate]. Qed.

Lemma contents_frame (w w' : world) (p : nat) :
  cont w' !! p = cont w !! p ->
  (forall l, owned_block w p = Some l -> heap w' !! l = heap w !! l) ->
  contents w' p = contents w p.
Proof.
  unfold contents, owned_block. intros E H. rewrite E.
  destruct (cont w !! p) as [[[t|] sm]|]; try reflexivity.
  unfold payload. simpl. destruct (fits_small t); [reflexivity|].
  destruct sm as [| |l]; try reflexivity. by rewrite H.
Qed.

Lemma owned_block_frame (w w' : world) (p : nat) :
  cont w' !! p = cont w !! p -> owned_block w' p = owned_block w p.
Proof. unfold owned_block. by intros ->. Qed.

Lemma move_empty (w : world) (dst src : nat) (ss : storage) :
  contents w dst = Some None -> cont w !! src = Some ss -> desc ss = None ->
  move (table (desc ss)) dst src w = Ok tt w.
Proof.
  intros Hd Es Hs. apply contents_empty in Hd as ([dd dsm] & Ed & Hdd).
  simpl in Hdd; subst dd. destruct ss as [d sm]; simpl in Hs; subst d.
  go. reflexivity.
Qed.

Lemma live_below (w : world) (p : nat) (c : option obj) :
  locals_fresh w -> contents w p = Some c -> p < nextc w.
Proof.
  intros Hf Hc. apply contents_live in Hc as [s Hs].
  destruct (decide (p < nextc w)); [done|]. rewrite Hf in Hs; [discriminate|lia].
Qed.

Lemma swap_spec (w : world) (a b : nat) (ca cb : option obj) :
  a <> b -> locals_fresh w ->
  contents w a = Some ca -> contents w b = Some cb ->
  exists w', storage_swap a b w = Ok tt w' /\
    contents w' a = Some cb /\ contents w' b = Some ca /\
    owned_block w' a = owned_block w b /\ owned_block w' b = owned_block w a /\
    heap w' = heap w /\ nextc w' = S (nextc w) /\ nexth w' = nexth w /\ oom w' = oom w /\
    (forall q, q <> a -> q <> b -> cont w' !! q = cont w !! q).
Proof.
  intros Hab Hf Ha Hb.
  pose proof (live_below _ _ _ Hf Ha) as Hla. pose proof (live_below _ _ _ Hf Hb) as Hlb.
  destruct (contents_live _ _ _ Ha) as [sa Ea]. destruct (contents_live _ _ _ Hb) as [sb Eb].
  set (tmp := nextc w).
  set (w1 := mk_world (cont w) (heap w) (S tmp) (nexth w) (oom w)).
  set (w2 := set_cont (<[tmp := mk_storage get_empty_func_descriptor Garbage]> (cont w1)) w1).
  assert (E2a : cont w2 !! a = Some sa) by (simpl; rewrite lookup_insert_ne by lia; exact Ea).
  destruct (move_spec w2 tmp a sa ca) as (w3 & Hm1 & H3t & H3a & O3t & O3a & Hh3 & Hn3 & Hx3 & Ho3 & F3).
  { lia. } { unfold contents. simpl. by rewrite lookup_insert_eq. } { exact E2a. }
  { rewrite <- Ha. apply contents_frame; [by rewrite E2a|done]. }
  assert (E3b : cont w3 !! b = Some sb).
  { rewrite F3 by lia. simpl. rewrite lookup_insert_ne by lia. exact Eb. }
  destruct (move_spec w3 a b sb cb) as (w4 & Hm2 & H4a & H4b & O4a & O4b & Hh4 & Hn4 & Hx4 & Ho4 & F4).
  { done. } { exact H3a. } { exact E3b. }
  { rewrite <- Hb. apply contents_frame.
    - rewrite E3b. by rewrite Eb.
    - intros l _. rewrite Hh3. reflexivity. }
  destruct (contents_live _ _ _ H3t) as [st E3t].
  assert (E4t : cont w4 !! tmp = Some st) by (rewrite F4 by lia; exact E3t).
  destruct (move_spec w4 b tmp st ca) as (w5 & Hm3 & H5b & H5t & O5b & O5t & Hh5 & Hn5 & Hx5 & Ho5 & F5).
  { lia. } { exact H4b. } { exact E4t. }
  { rewrite <- H3t. apply contents_frame; [by rewrite E4t|]. intros l _. by rewrite Hh4. }
  apply contents_empty in H5t as ([d5 sm5] & E5t & Hd5). simpl in Hd5; subst d5.
  exists (set_cont (delete tmp (cont w5)) w5).
  split.
  { unfold storage_swap.
    rewrite (bind_Ok_eq fresh_addr _ w tmp w1) by reflexivity.
    rewrite (bind_Ok_eq (storage_ctor tmp) _ w1 tt w2) by reflexivity.
    rewrite (bind_Ok_eq (get_st a) _ w2 sa w2) by (apply get_st_ok; exact E2a).
    rewrite (bind_Ok_eq _ _ _ _ _ Hm1).
    rewrite (bind_Ok_eq (get_st b) _ w3 sb w3) by (apply get_st_ok; exact E3b).
    rewrite (bind_Ok_eq _ _ _ _ _ Hm2).
    rewrite (bind_Ok_eq (get_st tmp) _ w4 st w4) by (apply get_st_ok; exact E4t).
    rewrite (bind_Ok_eq _ _ _ _ _ Hm3).
    unfold storage_dtor. rewrite (bind_Ok_eq (get_st tmp) _ w5 _ w5) by (apply get_st_ok; exact E5t).
    reflexivity. }
  assert (Fa : cont (set_cont (delete tmp (cont w5)) w5) !! a = cont w5 !! a)
    by (simpl; rewrite lookup_delete_ne by lia; reflexivity).
  assert (Fb : cont (set_cont (delete tmp (cont w5)) w5) !! b = cont w5 !! b)
    by (simpl; rewrite lookup_delete_ne by lia; reflexivity).
  assert (G5a : cont w5 !! a = cont w4 !! a) by (apply F5; lia).
  repeat split.
  - rewrite <- H4a. rewrite (contents_frame w4 _ a); [done| |].
    + by rewrite Fa.
    + intros l _. simpl. by rewrite Hh5.
  - rewrite <- H5b. apply contents_frame; [by rewrite Fb|done].
  - rewrite (owned_block_frame w4 _ a) by (by rewrite Fa). rewrite O4a.
    apply owned_block_frame. by rewrite E3b, Eb.
  - rewrite (owned_block_frame w5 _ b) by (by rewrite Fb). rewrite O5b.
    rewrite (owned_block_frame w3 _ tmp) by (apply F4; lia). rewrite O3t.
    apply owned_block_frame. by rewrite E2a, Ea.
  - simpl. by rewrite Hh5, Hh4, Hh3.
  - simpl. by rewrite Hn5, Hn4, Hn3.
  - simpl. by rewrite Hx5, Hx4, Hx3.
  - simpl. by rewrite Ho5, Ho4, Ho3.
  - intros q Hqa Hqb. simpl.
    destruct (decide (q = tmp)) as [->|Hqt].
    + rewrite lookup_delete_eq. symmetry. apply Hf. lia.
    + rewrite lookup_delete_ne by congruence. rewrite F5, F4, F3 by congruence.
      simpl. by rewrite lookup_insert_ne by congruence.
Qed.

Lemma swap_self_spec (w : world) (a : nat) (c : option obj) :
  locals_fresh w -> contents w a = Some c ->
  exists w', storage_swap a a w = Ok tt w' /\
    contents w' a = Some c /\ owned_block w' a = owned_block w a /\
    heap w' = heap w /\ nextc w' = S (nextc w) /\ nexth w' = nexth w /\ oom w' = oom w /\
    (forall q, q <> a -> cont w' !! q = cont w !! q).
Proof.
  intros Hf Ha.
  pose proof (live_below _ _ _ Hf Ha) as Hla.
  destruct (contents_live _ _ _ Ha) as [sa Ea].
  set (tmp := nextc w).
  set (w1 := mk_world (cont w) (heap w) (S tmp) (nexth w) (oom w)).
  set (w2 := set_cont (<[tmp := mk_storage get_empty_func_descriptor Garbage]> (cont w1)) w1).
  assert (E2a : cont w2 !! a = Some sa) by (simpl; rewrite lookup_insert_ne by lia; exact Ea).
  destruct (move_spec w2 tmp a sa c) as (w3 & Hm1 & H3t & H3a & O3t & O3a & Hh3 & Hn3 & Hx3 & Ho3 & F3).
  { lia. } { unfold contents. simpl. by rewrite lookup_insert_eq. } { exact E2a. }
  { rewrite <- Ha. apply contents_frame; [by rewrite E2a|done]. }
  pose proof H3a as H3a'.
  apply contents_empty in H3a' as (sa' & E3a & Hd3a).
  destruct (contents_live _ _ _ H3t) as [st E3t].
  destruct (move_spec w3 a tmp st c) as (w5 & Hm3 & H5a & H5t & O5a & O5t & Hh5 & Hn5 & Hx5 & Ho5 & F5).
  { lia. } { exact H3a. } { exact E3t. } { exact H3t. }
  apply contents_empty in H5t as ([d5 sm5] & E5t & Hd5). simpl in Hd5; subst d5.
  exists (set_cont (delete tmp (cont w5)) w5).
  split.
  { unfold storage_swap.
    rewrite (bind_Ok_eq fresh_addr _ w tmp w1) by reflexivity.
    rewrite (bind_Ok_eq (storage_ctor tmp) _ w1 tt w2) by reflexivity.
    rewrite (bind_Ok_eq (get_st a) _ w2 sa w2) by (apply get_st_ok; exact E2a).
    rewrite (bind_Ok_eq _ _ _ _ _ Hm1).
    rewrite (bind_Ok_eq (get_st a) _ w3 sa' w3) by (apply get_st_ok; exact E3a).
    rewrite (bind_Ok_eq _ _ _ _ _ (move_empty w3 a a sa' H3a E3a Hd3a)).
    rewrite (bind_Ok_eq (get_st tmp) _ w3 st w3) by (apply get_st_ok; exact E3t).
    rewrite (bind_Ok_eq _ _ _ _ _ Hm3).
    unfold storage_dtor. rewrite (bind_Ok_eq (get_st tmp) _ w5 _ w5) by (apply get_st_ok; exact E5t).
    reflexivity. }
  assert (Fa : cont (set_cont (delete tmp (cont w5)) w5) !! a = cont w5 !! a)
    by (simpl; rewrite lookup_delete_ne by lia; reflexivity).
  repeat split.
  - rewrite <- H5a. apply contents_frame; [by rewrite Fa|done].
  - rewrite (owned_block_frame w5 _ a) by (by rewrite Fa). rewrite O5a, O3t.
    apply owned_block_frame. by rewrite E2a, Ea.
  - simpl. by rewrite Hh5, Hh3.
  - simpl. by rewrite Hn5, Hn3.
  - simpl. by rewrite Hx5, Hx3.
  - simpl. by rewrite Ho5, Ho3.
  - intros q Hqa. simpl.
    destruct (decide (q = tmp)) as [->|Hqt].
    + rewrite lookup_delete_eq. symmetry. apply Hf. lia.
    + rewrite lookup_delete_ne by congruence. rewrite F5, F3 by congruence.
      simpl. by rewrite lookup_insert_ne by congruence.
Qed.

Lemma dtor_spec (w : world) (p : nat) (c : option obj) :
  contents w p = Some c ->
  exists w', storage_dtor p w = Ok tt w' /\
    cont w' = delete p (cont w) /\
    heap w' = match owned_block w p with Some l => delete l (heap w) | None => heap w end /\
    nextc w' = nextc w /\ nexth w' = nexth w /\ oom w' = oom w.
Proof.
  unfold contents, owned_block.
  destruct (cont w !! p) as [[[t|] sm]|] eqn:E; try discriminate.
  - unfold payload. simpl. intros Hc.
    destruct (fits_small t) eqn:Ef; destruct sm as [|o|l]; simpl in Hc; try discriminate.
    + destruct (decide (obj_type o = t)) as [Ht|]; [|discriminate].
      eexists. split. { go. reflexivity. }
      simpl. rewrite delete_insert_eq. repeat split.
    + destruct (heap w !! l) as [o|] eqn:El; [|discriminate].
      destruct (decide (obj_type o = t)) as [Ht|]; [|discriminate].
      eexists. split. { go. reflexivity. }
      simpl. repeat split.
  - intros _. eexists. split. { go. reflexivity. }
    simpl. repeat split.
Qed.

Lemma noexcept_Ok {X} (m : M X) (w : world) (x : X) (w' : world) :
  m w = Ok x w' -> noexcept m w = Ok x w'.
Proof. unfold noexcept. by intros ->. Qed.

Lemma move_ctor_spec (w : world) (dst src : nat) (c : option obj) :
  dst <> src -> contents w src = Some c ->
  exists w', fn_move_ctor dst src w = Ok tt w' /\
    contents w' dst = Some c /\ contents w' src = Some None /\
    owned_block w' dst = owned_block w src /\
    heap w' = heap w /\ nextc w' = nextc w /\ nexth w' = nexth w /\ oom w' = oom w /\
    (forall q, q <> dst -> q <> src -> cont w' !! q = cont w !! q).
Proof.
  intros Hne Hc. destruct (contents_live _ _ _ Hc) as [ss Es].
  set (w1 := set_cont (<[dst := mk_storage get_empty_func_descriptor Garbage]> (cont w)) w).
  assert (E1 : cont w1 !! src = Some ss) by (simpl; rewrite lookup_insert_ne by congruence; exact Es).
  destruct (move_spec w1 dst src ss c) as (w2 & Hm & H2d & H2s & O2 & O2s & Hh & Hn & Hx & Ho & F).
  { done. } { unfold contents. simpl. by rewrite lookup_insert_eq. } { exact E1. }
  { rewrite <- Hc. apply contents_frame; [by rewrite E1|done]. }
  exists w2. split.
  { unfold fn_move_ctor. apply noexcept_Ok.
    rewrite (bind_Ok_eq (fn_default dst) _ w tt w1) by reflexivity.
    rewrite (bind_Ok_eq (get_st src) _ w1 ss w1) by (apply get_st_ok; exact E1).
    exact Hm. }
  repeat split; try done.
  - rewrite O2. apply owned_block_frame. by rewrite E1.
  - intros q H1 H2. rewrite F by done. simpl. by rewrite lookup_insert_ne by congruence.
Qed.

Lemma copy_spec (w : world) (dst src : nat) (ss : storage) (c : option obj) :
  dst <> src -> contents w dst = Some None ->
  cont w !! src = Some ss -> contents w src = Some c ->
  heap w !! nexth w = None ->
  match copy (table (desc ss)) dst src w with
  | Ok _ w' =>
      contents w' dst = Some c /\ contents w' src = Some c /\
      (forall l, owned_block w' dst = Some l -> l = nexth w) /\
      (forall l, l <> nexth w -> heap w' !! l = heap w !! l) /\
      nextc w' = nextc w /\ (forall q, q <> dst -> cont w' !! q = cont w !! q)
  | Exn _ w' => cont w' = cont w /\ heap w' = heap w /\ nextc w' = nextc w
  | Stuck => False
  end.
Proof.
  intros Hne Hd Es Hc Hfr.
  apply contents_empty in Hd as ([dd dsm] & Ed & Hdd). simpl in Hdd; subst dd.
  unfold contents, owned_block in *. rewrite Es in Hc.
  destruct ss as [[t|] sm]; simpl in *.
  - unfold payload in Hc. simpl in Hc.
    destruct (fits_small t) eqn:Ef; destruct sm as [|o|l]; simpl in Hc; try discriminate.
    + destruct (decide (obj_type o = t)) as [Ht|]; [|discriminate]. injection Hc as <-.
      destruct (copy_throws (projT1 o) (projT2 o)) eqn:Ect.
      * go. repeat split.
      * go. finish.
    + destruct (heap w !! l) as [o|] eqn:El; [|discriminate].
      destruct (decide (obj_type o = t)) as [Ht|]; [|discriminate]. injection Hc as <-.
      assert (Hl : l <> nexth w) by congruence.
      destruct (oom w) as [|[|] rest] eqn:Eo;
        [|go; repeat split; done|];
        (destruct (copy_throws (projT1 o) (projT2 o)) eqn:Ect;
         [go; repeat split; done|]);
        go; finish.
  - injection Hc as <-. go. finish.
Qed.

Lemma copy_ctor_spec (w : world) (dst src : nat) (c : option obj) :
  dst <> src -> contents w src = Some c -> heap w !! nexth w = None ->
  match fn_copy_ctor dst src w with
  | Ok _ w' =>
      contents w' dst = Some c /\ contents w' src = Some c /\
      (forall l, owned_block w' dst = Some l -> l = nexth w) /\
      (forall l, l <> nexth w -> heap w' !! l = heap w !! l) /\
      nextc w' = nextc w /\ (forall q, q <> dst -> cont w' !! q = cont w !! q)
  | Exn _ w' => cont w' = delete dst (cont w) /\ heap w' = heap w /\ nextc w' = nextc w
  | Stuck => False
  end.
Proof.
  intros Hne Hc Hfr. destruct (contents_live _ _ _ Hc) as [ss Es].
  set (w1 := set_cont (<[dst := mk_storage get_empty_func_descriptor Garbage]> (cont w)) w).
  assert (E1 : cont w1 !! src = Some ss) by (simpl; rewrite lookup_insert_ne by congruence; exact Es).
  assert (Hd1 : contents w1 dst = Some None)
    by (unfold contents; simpl; by rewrite lookup_insert_eq).
  assert (Hc1 : contents w1 src = Some c)
    by (rewrite <- Hc; apply contents_frame; [by rewrite E1|done]).
  pose proof (copy_spec w1 dst src ss c Hne Hd1 E1 Hc1 Hfr) as H.
  unfold fn_copy_ctor.
  rewrite (bind_Ok_eq (fn_default dst) _ w tt w1) by reflexivity.
  unfold catch at 1.
  rewrite (bind_Ok_eq (get_st src) _ w1 ss w1) by (apply get_st_ok; exact E1).
  destruct (copy (table (desc ss)) dst src w1) as [x w'|e w'|] eqn:Ec.
  - destruct H as (H1 & H2 & H3 & H4 & H5 & H6). repeat split; try done.
    intros q Hq. rewrite H6 by done. simpl. by rewrite lookup_insert_ne by congruence.
  - destruct H as (H1 & H2 & H3).
    assert (Ed : cont w' !! dst = Some (mk_storage get_empty_func_descriptor Garbage))
      by (rewrite H1; simpl; by rewrite lookup_insert_eq).
    unfold fn_dtor, storage_dtor.
    go.
    repeat split.
    + rewrite H1. simpl. by rewrite delete_insert_eq.
    + by rewrite H2.
    + by rewrite H3.
  - done.
Qed.

Lemma apply_spec (w : world) (p : nat) (o : obj) (a : Arg) :
  contents w p = Some (Some o) ->
  exists w', fn_apply p a w = Ok (fst (call_obj o a)) w' /\
    contents w' p = Some (Some (snd (call_obj o a))) /\
    owned_block w' p = owned_block w p /\
    (forall q, q <> p -> cont w' !! q = cont w !! q) /\
    (forall l, owned_block w p <> Some l -> heap w' !! l = heap w !! l) /\
    nextc w' = nextc w /\ nexth w' = nexth w /\ oom w' = oom w.
Proof.
  unfold contents, owned_block.
  destruct (cont w !! p) as [[[t|] sm]|] eqn:E; try discriminate.
  unfold payload. simpl. intros Hc.
  destruct (fits_small t) eqn:Ef; destruct sm as [|o'|l]; simpl in Hc; try discriminate.
  - destruct (decide (obj_type o' = t)) as [Ht|]; [|discriminate]. injection Hc as <-.
    eexists. split. { unfold fn_apply. go. reflexivity. }
    go. finish.
  - destruct (heap w !! l) as [o'|] eqn:El; [|discriminate].
    destruct (decide (obj_type o' = t)) as [Ht|]; [|discriminate]. injection Hc as <-.
    eexists. split. { unfold fn_apply. go. reflexivity. }
    go. finish.
Qed.

Lemma apply_contents (w : world) (p : nat) (c : option obj) (a : Arg) :
  contents w p = Some c -> observe (fn_apply p a w) = expected_call c a.
Proof.
  unfold contents, fn_apply.
  destruct (cont w !! p) as [[d sm]|] eqn:E; [|discriminate].
  destruct d as [t|]; simpl.
  - unfold payload. simpl. intros H.
    destruct (fits_small t) eqn:Ef; destruct sm as [|o|l]; simpl in *; try discriminate.
    + destruct (decide (obj_type o = t)); [|discriminate]. go. injection H as <-. reflexivity.
    + destruct (heap w !! l) as [o|] eqn:El; [|discriminate].
      destruct (decide (obj_type o = t)); [|discriminate]. go. injection H as <-. reflexivity.
  - intros H; injection H as <-. go. reflexivity.
Qed.

Lemma bool_spec (w : world) (p : nat) (c : option obj) :
  contents w p = Some c -> fn_bool p w = Ok (if c then true else false) w.
Proof.
  unfold contents. destruct (cont w !! p) as [[[t|] sm]|] eqn:E; try discriminate.
  - intros Hc. unfold fn_bool. go. destruct c; [reflexivity|].
    cbn [desc] in Hc. destruct (payload (heap w) t _); discriminate.
  - intros Hc. injection Hc as <-. unfold fn_bool. go. reflexivity.
Qed.

Lemma target_spec (w : world) (p : nat) (c : option obj) (q : Tid) :
  contents w p = Some c ->
  exists r, fn_target q p w = Ok r w /\
    (is_Some r <-> exists o, c = Some o /\ obj_type o = q) /\
    (forall x o, r = Some x -> c = Some o -> load q x w = Ok o w).
Proof.
  unfold contents. destruct (cont w !! p) as [[[t|] sm]|] eqn:E; try discriminate.
  - unfold payload. simpl. intros Hc.
    destruct (decide (t = q)) as [<-|Hq].
    + destruct (fits_small t) eqn:Ef; destruct sm as [|o|l]; simpl in Hc; try discriminate.
      * destruct (decide (obj_type o = t)) as [Ht|]; [|discriminate]. injection Hc as <-.
        eexists. split. { unfold fn_target. go. reflexivity. }
        split. { split; [intros _; by exists o|intros _; by eexists]. }
        intros x o' Hx Ho. injection Hx as <-. injection Ho as <-. go. reflexivity.
      * destruct (heap w !! l) as [o|] eqn:El; [|discriminate].
        destruct (decide (obj_type o = t)) as [Ht|]; [|discriminate]. injection Hc as <-.
        eexists. split. { unfold fn_target. go. reflexivity. }
        split. { split; [intros _; by exists o|intros _; by eexists]. }
        intros x o' Hx Ho. injection Hx as <-. injection Ho as <-. go. reflexivity.
    + assert (Hq' : Some t <> get_descriptor q) by (unfold get_descriptor; congruence).
      exists None. split. { unfold fn_target. go. reflexivity. }
      split; [|intros x o Hx; discriminate].
      split; [intros [? Hx]; discriminate|].
      intros (o & -> & Ho).
      destruct (if fits_small t then _ else _) as [o'|]; [|discriminate].
      destruct (decide (obj_type o' = t)); [|discriminate].
      injection Hc as ->. congruence.
  - intros Hc. injection Hc as <-. exists None. split. { unfold fn_target. go. reflexivity. }
    split; [|intros x o Hx; discriminate].
    split; [intros [? Hx]; discriminate|]. intros (o & Ho & _). discriminate.
Qed.

Lemma from_spec (w w' : world) (t : Tid) (v : val t) (p : nat) :
  fn_from t v p w = Ok tt w' -> contents w' p = Some (Some (existT t v)).
Proof.
  unfold fn_from, init. unfold contents.
  destruct (fits_small t) eqn:Ef.
  - assert (Hmt : move_throws t v = false) by (by apply fits_small_nothrow).
    go. intros H. injection H as <-. simpl. rewrite lookup_insert_eq. go. reflexivity.
  - destruct (move_throws t v) eqn:Hmt; destruct (oom w) as [|[|] rest] eqn:Eo; go; intros H;
      try discriminate; injection H as <-; simpl; rewrite lookup_insert_eq; go; reflexivity.
Qed.

End Proofs.

Section Observations.
Context {U : callable_universe}.

Lemma owned_block_empty (w : world) (p : nat) :
  contents w p = Some None -> owned_block w p = None.
Proof.
  intros Hc. apply contents_empty in Hc as ([d sm] & E & Hd). simpl in Hd; subst d.
  unfold owned_block. by rewrite E.
Qed.

Lemma bind_Exn_eq {X Y} (m : M X) (k : X -> M Y) (w : world) (e : exn) (w' : world) :
  m w = Exn e w' -> bind m k w = Exn e w'.
Proof. unfold bind. by intros ->. Qed.

Lemma owned_in_heap (w : world) (p l : nat) (o : obj) :
  contents w p = Some (Some o) -> owned_block w p = Some l -> heap w !! l = Some o.
Proof.
  unfold contents, owned_block. intros Hc Hl.
  destruct (cont w !! p) as [[[t|] sm]|]; try discriminate.
  unfold payload in Hc. simpl in Hc.
  destruct sm as [| |l']; try discriminate.
  destruct (fits_small t); [discriminate|].
  injection Hl as ->.
  destruct (heap w !! l) as [o'|]; [|discriminate].
  destruct (decide (obj_type o' = t)); [|discriminate]. congruence.
Qed.

Lemma empty_behaviour (w : world) (p : nat) :
  contents w p = Some None ->
  fn_bool p w = Ok false w /\
  (forall a, fn_apply p a w = Exn BadFunctionCall w) /\
  (forall t, fn_target t p w = Ok None w).
Proof.
  intros Hc. apply contents_empty in Hc as ([d sm] & E & Hd). simpl in Hd; subst d.
  split; [|split].
  - unfold fn_bool. go. reflexivity.
  - intros a. unfold fn_apply. go. reflexivity.
  - intros t. unfold fn_target. go. reflexivity.
Qed.

Lemma target_nonnull_spec (w : world) (p : nat) (c : option obj) (t : Tid) :
  contents w p = Some c ->
  fn_target_nonnull t p w =
    Ok (match c with Some o => bool_decide (obj_type o = t) | None => false end) w.
Proof.
  intros Hc. destruct (target_spec w p c t Hc) as (r & Hr & Hiff & _).
  unfold fn_target_nonnull. rewrite (bind_Ok_eq _ _ _ _ _ Hr). unfold ret. f_equal.
  destruct c as [o|].
  - apply bool_decide_ext. rewrite Hiff.
    split; [intros (o' & Ho & Ht); congruence|intros Ht; by exists o].
  - apply bool_decide_eq_false_2. rewrite Hiff. intros (o' & Ho & _). discriminate.
Qed.

Lemma same_contents_same_behaviour (w w' : world) (p p' : nat) (c : option obj) :
  contents w p = Some c -> contents w' p' = Some c ->
  observe (fn_bool p w) = observe (fn_bool p' w') /\
  (forall t, observe (fn_target_nonnull t p w) = observe (fn_target_nonnull t p' w')) /\
  (forall x, observe (fn_apply p x w) = observe (fn_apply p' x w')).
Proof.
  intros H1 H2. split; [|split].
  - by rewrite (bool_spec _ _ _ H1), (bool_spec _ _ _ H2).
  - intros t. by rewrite (target_nonnull_spec _ _ _ t H1), (target_nonnull_spec _ _ _ t H2).
  - intros x. by rewrite (apply_contents _ _ _ x H1), (apply_contents _ _ _ x H2).
Qed.

End Observations.

(** * The properties of the specification *)

Section Properties.
Context {U : callable_universe}.

(** C1 (round trip): a container constructed from a callable [v] of
    type [t] and then invoked on [a] returns what [v] returns on [a],
    through [apply] and through [operator()], whether [t] fits the
    inline buffer or is stored on the heap. *)
Theorem roundtrip_identity (w w1 : world) (t : Tid) (v : val t) (p : nat) (a : Arg) :
  fn_from t v p w = Ok tt w1 ->
  observe (fn_apply p a w1) = Returns (fst (call t v a)) /\
  observe (fn_call p a w1) = Returns (fst (call t v a)).
Proof.
  intros H. pose proof (from_spec _ _ _ _ _ H) as Hc.
  split; apply (apply_contents _ _ _ a Hc).
Qed.

(** C2 (empty invocation): a default-constructed container raises
    [bad_function_call] when invoked through [apply] or [operator()] and
    converts to [false]; [target], copying from it, moving from it and
    destroying it all succeed. *)
Theorem empty_invocation (w : world) (p : nat) (a : Arg) (t : Tid) :
  let w1 := set_cont (<[p := mk_storage get_empty_func_descriptor Garbage]> (cont w)) w in
  fn_default p w = Ok tt w1 /\
  fn_apply p a w1 = Exn BadFunctionCall w1 /\
  fn_call p a w1 = Exn BadFunctionCall w1 /\
  fn_bool p w1 = Ok false w1 /\
  fn_target t p w1 = Ok None w1 /\
  (forall q, q <> p ->
     succeeds (fn_copy_ctor q p w1) = true /\ succeeds (fn_move_ctor q p w1) = true) /\
  succeeds (fn_dtor p w1) = true.
Proof.
  intros w1.
  assert (Hc : contents w1 p = Some None) by (unfold contents; simpl; by rewrite lookup_insert_eq).
  destruct (empty_behaviour w1 p Hc) as (Hb & Ha & Ht).
  split; [reflexivity|]. split; [apply Ha|]. split; [apply Ha|].
  split; [exact Hb|]. split; [apply Ht|]. split.
  - intros q Hq. split.
    + unfold fn_copy_ctor, fn_default, fn_dtor. go. reflexivity.
    + destruct (move_ctor_spec w1 q p None Hq Hc) as (w' & -> & _). done.
  - destruct (dtor_spec w1 p None Hc) as (w' & Hd & _). unfold fn_dtor. by rewrite Hd.
Qed.

(** C3 (move empties the source): moving a container [p1] that holds
    [o] into [p2], by move construction or by move assignment, leaves
    [p1] empty like a default-constructed container (false, invoking it
    raises, no target) and [p2] holding [o], answering every invocation
    as [p1] did before.  For assignment, [p2] may be empty or hold any
    callable that does not share [p1]'s heap block. *)
Theorem move_empties_source (w : world) (p1 p2 : nat) (o : obj) :
  contents w p1 = Some (Some o) -> p1 <> p2 ->
  (exists w', fn_move_ctor p2 p1 w = Ok tt w' /\
     contents w' p1 = Some None /\ contents w' p2 = Some (Some o) /\
     fn_bool p1 w' = Ok false w' /\
     (forall a, fn_apply p1 a w' = Exn BadFunctionCall w') /\
     (forall t, fn_target t p1 w' = Ok None w') /\
     (forall a, observe (fn_apply p2 a w') = observe (fn_apply p1 a w))) /\
  (forall c2, contents w p2 = Some c2 -> locals_fresh w ->
     (forall l, owned_block w p1 = Some l -> owned_block w p2 <> Some l) ->
     exists w', fn_move_assign p2 p1 w = Ok tt w' /\
       contents w' p1 = Some None /\ contents w' p2 = Some (Some o) /\
       fn_bool p1 w' = Ok false w' /\
       (forall a, fn_apply p1 a w' = Exn BadFunctionCall w') /\
       (forall t, fn_target t p1 w' = Ok None w') /\
       (forall a, observe (fn_apply p2 a w') = observe (fn_apply p1 a w))).
Proof.
  intros Hc1 Hne. split.
  - destruct (move_ctor_spec w p2 p1 (Some o)) as (w' & Hm & H2 & H1 & _); [congruence|done|].
    destruct (empty_behaviour w' p1 H1) as (Hb & Ha & Ht).
    exists w'. repeat split; try done.
    intros a. by rewrite (apply_contents _ _ _ a H2), (apply_contents _ _ _ a Hc1).
  - intros c2 Hc2 Hf Hsep.
    pose proof (live_below _ _ _ Hf Hc1) as L1. pose proof (live_below _ _ _ Hf Hc2) as L2.
    set (tmp := nextc w).
    set (w0 := mk_world (cont w) (heap w) (S tmp) (nexth w) (oom w)).
    assert (H0p1 : contents w0 p1 = Some (Some o))
      by (rewrite <- Hc1; by apply contents_frame).
    destruct (move_ctor_spec w0 tmp p1 (Some o))
      as (w1 & Hm & H1t & H1p1 & O1t & Hh1 & Hn1 & Hx1 & Ho1 & F1); [lia|done|].
    assert (Hf1 : locals_fresh w1).
    { intros q Hq. rewrite Hn1 in Hq. simpl in Hq. rewrite F1 by lia. apply Hf. lia. }
    assert (E1p2 : cont w1 !! p2 = cont w !! p2) by (rewrite F1 by lia; reflexivity).
    assert (H1p2 : contents w1 p2 = Some c2)
      by (rewrite <- Hc2; apply contents_frame; [done|intros l _; by rewrite Hh1]).
    destruct (swap_spec w1 p2 tmp c2 (Some o))
      as (w2 & Hs & H2p2 & H2t & O2p2 & O2t & Hh2 & Hn2 & Hx2 & Ho2 & F2); [lia|done|done|done|].
    destruct (dtor_spec w2 tmp c2 H2t) as (w3 & Hd & Hc3 & Hh3 & _).
    assert (E3p1 : cont w3 !! p1 = cont w1 !! p1).
    { rewrite Hc3, lookup_delete_ne by lia. apply F2; lia. }
    assert (H3p1 : contents w3 p1 = Some None).
    { rewrite <- H1p1. apply contents_frame; [done|].
      intros l Hl. by rewrite (owned_block_empty _ _ H1p1) in Hl. }
    assert (H3p2 : contents w3 p2 = Some (Some o)).
    { rewrite <- H2p2. apply contents_frame; [by rewrite Hc3, lookup_delete_ne by lia|].
      intros l Hl. rewrite Hh3, O2t.
      rewrite O2p2, O1t, (owned_block_frame w _ p1) in Hl by reflexivity.
      rewrite (owned_block_frame w _ p2) by done.
      destruct (owned_block w p2) as [l2|] eqn:Ol2; [|done].
      rewrite lookup_delete_ne; [done|]. intros ->. by apply (Hsep l Hl). }
    destruct (empty_behaviour w3 p1 H3p1) as (Hb & Ha & Ht).
    exists w3. split.
    { unfold fn_move_assign. apply noexcept_Ok.
      rewrite decide_False by congruence.
      rewrite (bind_Ok_eq fresh_addr _ w tmp w0) by reflexivity.
      rewrite (bind_Ok_eq _ _ _ _ _ Hm).
      rewrite (bind_Ok_eq _ _ _ _ _ (noexcept_Ok _ _ _ _ Hs)).
      exact Hd. }
    repeat split; try done.
    intros a. by rewrite (apply_contents _ _ _ a H3p2), (apply_contents _ _ _ a Hc1).
Qed.

(** C4 (copy independence): copy-constructing [p2] from a container
    [p1] that holds [o] leaves [p1] holding [o] and gives [p2] its own
    copy of [o], in a heap block (if any) that [p1] does not own; invoking
    either copy, which may update the callable's state, leaves the other
    holding [o]. *)
Theorem copy_independence (w w' : world) (p1 p2 : nat) (o : obj) :
  contents w p1 = Some (Some o) -> p1 <> p2 -> heap w !! nexth w = None ->
  fn_copy_ctor p2 p1 w = Ok tt w' ->
  contents w' p1 = Some (Some o) /\ contents w' p2 = Some (Some o) /\
  (forall l, owned_block w' p2 = Some l -> owned_block w' p1 <> Some l) /\
  (forall a, exists w'', fn_apply p2 a w' = Ok (fst (call_obj o a)) w'' /\
     contents w'' p1 = Some (Some o)) /\
  (forall a, exists w'', fn_apply p1 a w' = Ok (fst (call_obj o a)) w'' /\
     contents w'' p2 = Some (Some o)).
Proof.
  intros Hc Hne Hfree Hcp.
  pose proof (copy_ctor_spec w p2 p1 (Some o)) as H.
  rewrite Hcp in H. destruct H as (H2 & H1 & Ob2 & Hh & _ & Fc); [congruence|done|done|].
  assert (Sep : forall l, owned_block w' p2 = Some l -> owned_block w' p1 <> Some l).
  { intros l Hl Hl1. apply Ob2 in Hl. subst l.
    rewrite (owned_block_frame w w' p1) in Hl1 by (apply Fc; congruence).
    pose proof (owned_in_heap _ _ _ _ Hc Hl1). congruence. }
  split; [done|]. split; [done|]. split; [done|]. split.
  - intros a. destruct (apply_spec w' p2 o a H2) as (w2 & Ha & _ & _ & Fc2 & Fh2 & _).
    exists w2. split; [done|]. rewrite <- H1. apply contents_frame; [apply Fc2; congruence|].
    intros l Hl. apply Fh2. intros Hl2. exact (Sep l Hl2 Hl).
  - intros a. destruct (apply_spec w' p1 o a H1) as (w2 & Ha & _ & _ & Fc2 & Fh2 & _).
    exists w2. split; [done|]. rewrite <- H2. apply contents_frame; [apply Fc2; congruence|].
    intros l Hl. apply Fh2. exact (Sep l Hl).
Qed.

(** C6 (target identity): on a container [p] with contents [c],
    [target<q>()] succeeds without changing anything and is non-null
    exactly when [c] is an object of type exactly [q], and then points
    at that object; empty containers give null.  The test compares
    descriptor pointers: [get_descriptor<q>()] is the same pointer for
    the same type, a different one for every other type, and never the
    empty descriptor. *)
Theorem target_identity (w : world) (p : nat) (c : option obj) (q : Tid) :
  contents w p = Some c ->
  (exists r, fn_target q p w = Ok r w /\
     (is_Some r <-> exists o, c = Some o /\ obj_type o = q) /\
     (forall x o, r = Some x -> c = Some o -> load q x w = Ok o w)) /\
  (forall q', get_descriptor q = get_descriptor q' <-> q = q') /\
  get_descriptor q <> get_empty_func_descriptor.
Proof.
  intros Hc. split; [exact (target_spec w p c q Hc)|].
  unfold get_descriptor, get_empty_func_descriptor.
  split; [intros q'; split; congruence|discriminate].
Qed.

(** C7 (swap symmetry): swapping two distinct containers in any states
    succeeds and exchanges their contents, so that each one converts to
    [bool], answers [target] and is invoked as the other one did. *)
Theorem swap_symmetry (w : world) (a b : nat) (ca cb : option obj) :
  a <> b -> locals_fresh w ->
  contents w a = Some ca -> contents w b = Some cb ->
  exists w', fn_swap a b w = Ok tt w' /\
    contents w' a = Some cb /\ contents w' b = Some ca /\
    observe (fn_bool a w') = observe (fn_bool b w) /\
    observe (fn_bool b w') = observe (fn_bool a w) /\
    (forall t, observe (fn_target_nonnull t a w') = observe (fn_target_nonnull t b w)) /\
    (forall t, observe (fn_target_nonnull t b w') = observe (fn_target_nonnull t a w)) /\
    (forall x, observe (fn_apply a x w') = observe (fn_apply b x w)) /\
    (forall x, observe (fn_apply b x w') = observe (fn_apply a x w)).
Proof.
  intros Hab Hf Ha Hb.
  destruct (swap_spec w a b ca cb Hab Hf Ha Hb) as (w' & Hs & Ha' & Hb' & _).
  destruct (same_contents_same_behaviour w' w a b cb Ha' Hb) as (B1 & T1 & A1).
  destruct (same_contents_same_behaviour w' w b a ca Hb' Ha) as (B2 & T2 & A2).
  exists w'. unfold fn_swap. rewrite (noexcept_Ok _ _ _ _ Hs). by repeat split.
Qed.

(** C8 (strong exception safety of copy assignment): when copying the
    source into the temporary raises, [p = q] raises the same exception
    and leaves every container and the heap as they were; in particular
    [p] still holds its callable. *)
Theorem copy_assign_strong (w w0 : world) (p q : nat) (cp cq : option obj) (e : exn) :
  contents w p = Some cp -> contents w q = Some cq -> p <> q ->
  locals_fresh w -> heap w !! nexth w = None ->
  fn_copy_ctor (nextc w) q (mk_world (cont w) (heap w) (S (nextc w)) (nexth w) (oom w))
    = Exn e w0 ->
  fn_copy_assign p q w = Exn e w0 /\
  cont w0 = cont w /\ heap w0 = heap w /\
  contents w0 p = Some cp /\ contents w0 q = Some cq.
Proof.
  intros Hp Hq Hpq Hf Hfree Hx.
  set (tmp := nextc w) in *.
  set (w1 := mk_world (cont w) (heap w) (S tmp) (nexth w) (oom w)) in *.
  pose proof (live_below _ _ _ Hf Hq) as Lq.
  assert (H1q : contents w1 q = Some cq) by (rewrite <- Hq; by apply contents_frame).
  pose proof (copy_ctor_spec w1 tmp q cq) as H. rewrite Hx in H.
  destruct H as (Hc0 & Hh0 & _); [lia|done|done|].
  assert (Ec : cont w0 = cont w).
  { rewrite Hc0. apply delete_id. apply Hf. reflexivity. }
  assert (Ef : forall r, contents w0 r = contents w r)
    by (intros r; apply contents_frame; [by rewrite Ec|intros l _; by rewrite Hh0]).
  split.
  { unfold fn_copy_assign. rewrite decide_False by congruence.
    rewrite (bind_Ok_eq fresh_addr _ w tmp w1) by reflexivity.
    by apply bind_Exn_eq. }
  by rewrite !Ef.
Qed.

(** C9 (self-assignment): [c = c] and [c = std::move(c)] return at once
    and change nothing. *)
Theorem self_assignment (w : world) (p : nat) :
  fn_copy_assign p p w = Ok tt w /\ fn_move_assign p p w = Ok tt w.
Proof.
  split.
  - unfold fn_copy_assign. by rewrite decide_True.
  - unfold fn_move_assign, noexcept. by rewrite decide_True.
Qed.

(** C10 (self-swap): [c.swap(c)] succeeds and leaves [c] with the same
    contents and the same behaviour, whether it is empty or not. *)
Theorem self_swap (w : world) (p : nat) (c : option obj) :
  locals_fresh w -> contents w p = Some c ->
  exists w', fn_swap p p w = Ok tt w' /\ contents w' p = Some c /\
    observe (fn_bool p w') = observe (fn_bool p w) /\
    (forall t, observe (fn_target_nonnull t p w') = observe (fn_target_nonnull t p w)) /\
    (forall x, observe (fn_apply p x w') = observe (fn_apply p x w)).
Proof.
  intros Hf Hc.
  destruct (swap_self_spec w p c Hf Hc) as (w' & Hs & Hc' & _).
  destruct (same_contents_same_behaviour w' w p p c Hc' Hc) as (B & T & A).
  exists w'. unfold fn_swap. rewrite (noexcept_Ok _ _ _ _ Hs). by repeat split.
Qed.

End Properties.

(** * Further properties of the code *)

Section ExtraLemmas.
Context {U : callable_universe}.

Lemma from_world (w w' : world) (t : Tid) (v : val t) (p : nat) :
  fn_from t v p w = Ok tt w' ->
  (forall q, q <> p -> cont w' !! q = cont w !! q) /\
  ((owned_block w' p = None /\ heap w' = heap w) \/
   (owned_block w' p = Some (nexth w) /\ heap w' = <[nexth w := existT t v]> (heap w))) /\
  nextc w' = nextc w.
Proof.
  unfold fn_from, init.
  destruct (fits_small t) eqn:Ef.
  - assert (Hmt : move_throws t v = false) by (by apply fits_small_nothrow).
    go. intros H. injection H as <-. split; [|split].
    + intros q Hq. simpl. rewrite !lookup_insert_ne by congruence. reflexivity.
    + left. unfold owned_block. simpl. rewrite lookup_insert_eq. simpl. done.
    + reflexivity.
  - destruct (move_throws t v) eqn:Hmt; destruct (oom w) as [|[|] rest] eqn:Eo; go; intros H;
      try discriminate; injection H as <-; (split; [|split]);
      try (intros q Hq; simpl; rewrite !lookup_insert_ne by congruence; reflexivity);
      try reflexivity;
      right; unfold owned_block; simpl; rewrite lookup_insert_eq; simpl; rewrite ?Ef; done.
Qed.


Lemma swap_keeps_fresh (w w' : world) (a b : nat) :
  a < nextc w -> b < nextc w -> locals_fresh w ->
  nextc w' = S (nextc w) ->
  (forall q, q <> a -> q <> b -> cont w' !! q = cont w !! q) ->
  locals_fresh w'.
Proof.
  intros Ha Hb Hf Hn F q Hq. rewrite Hn in Hq. rewrite F by lia. apply Hf. lia.
Qed.


Lemma owned_allocated (w : world) (p l : nat) (c : option obj) :
  contents w p = Some c -> owned_block w p = Some l -> exists o, heap w !! l = Some o.
Proof.
  intros Hc Hl. destruct c as [o|].
  - exists o. exact (owned_in_heap _ _ _ _ Hc Hl).
  - by rewrite (owned_block_empty _ _ Hc) in Hl.
Qed.

End ExtraLemmas.

Section Extras.
Context {U : callable_universe}.

(** Moving out of a well-formed container, empty or not, succeeds even
    when the payload type's move constructor may raise; it allocates
    nothing and hands over the heap block the source owned. *)
Theorem move_ctor_no_alloc (w : world) (dst src : nat) (c : option obj) :
  dst <> src -> contents w src = Some c ->
  exists w', fn_move_ctor dst src w = Ok tt w' /\
    contents w' dst = Some c /\ contents w' src = Some None /\
    owned_block w' dst = owned_block w src /\
    heap w' = heap w /\ nexth w' = nexth w /\ oom w' = oom w /\
    (forall q, q <> dst -> q <> src -> cont w' !! q = cont w !! q).
Proof.
  intros Hne Hc.
  destruct (move_ctor_spec w dst src c Hne Hc) as (w' & Hm & H1 & H2 & H3 & H4 & _ & H6 & H7 & H8).
  exists w'. by repeat split.
Qed.

(** Copy construction never has undefined behaviour on a well-formed
    source: either both containers then hold the source's callable, any
    new heap block being the one just allocated and nothing else changed,
    or it raises, the half-built destination is destroyed and the heap is
    as before. *)
Theorem copy_ctor_outcome (w : world) (dst src : nat) (c : option obj) :
  dst <> src -> contents w src = Some c -> heap w !! nexth w = None ->
  match fn_copy_ctor dst src w with
  | Ok _ w' =>
      contents w' dst = Some c /\ contents w' src = Some c /\
      (forall l, owned_block w' dst = Some l -> l = nexth w) /\
      (forall l, l <> nexth w -> heap w' !! l = heap w !! l) /\
      (forall q, q <> dst -> cont w' !! q = cont w !! q)
  | Exn _ w' => cont w' = delete dst (cont w) /\ heap w' = heap w
  | Stuck => False
  end.
Proof.
  intros Hne Hc Hf. pose proof (copy_ctor_spec w dst src c Hne Hc Hf) as H.
  destruct (fn_copy_ctor dst src w) as [x w'|e w'|]; [|tauto|done].
  destruct H as (H1 & H2 & H3 & H4 & _ & H6). by repeat split.
Qed.

(** Copy construction raises only in two ways: [operator new] fails for a
    heap-stored payload ([std::bad_alloc]), or the payload's own copy
    constructor raises; copying an empty container never raises. *)
Theorem copy_ctor_raises (w w' : world) (dst src : nat) (c : option obj) (e : exn) :
  dst <> src -> contents w src = Some c -> fn_copy_ctor dst src w = Exn e w' ->
  exists o, c = Some o /\
    ((fits_small (obj_type o) = false /\ head (oom w) = Some true /\ e = BadAlloc) \/
     (copy_throws (projT1 o) (projT2 o) = true /\ e = UserThrow)).
Proof.
  intros Hne Hc. unfold contents in Hc.
  destruct (cont w !! src) as [[[t|] sm]|] eqn:Es; try discriminate.
  - unfold payload in Hc. simpl in Hc.
    unfold fn_copy_ctor, fn_default, fn_dtor.
    destruct (fits_small t) eqn:Ef; destruct sm as [|o|l]; simpl in Hc; try discriminate.
    + destruct (decide (obj_type o = t)) as [Ht|]; [|discriminate]. injection Hc as <-.
      destruct (copy_throws (projT1 o) (projT2 o)) eqn:Ect; go; intros H; try discriminate.
      injection H as <- _. exists o. split; [done|]. by right.
    + destruct (heap w !! l) as [o|] eqn:El; [|discriminate].
      destruct (decide (obj_type o = t)) as [Ht|]; [|discriminate]. injection Hc as <-.
      destruct (oom w) as [|[|] rest] eqn:Eo;
        (destruct (copy_throws (projT1 o) (projT2 o)) eqn:Ect);
        go; intros H; try discriminate; injection H as <- _; exists o; split; try done.
      * by right.
      * left. by rewrite Ht.
      * left. by rewrite Ht.
      * by right.
  - unfold fn_copy_ctor, fn_default, fn_dtor. go. discriminate.
Qed.

(** Destroying a well-formed container removes it and frees exactly the
    heap block it owned (none for an empty or inline one). *)
Theorem dtor_frees_owned_block (w : world) (p : nat) (c : option obj) :
  contents w p = Some c ->
  exists w', fn_dtor p w = Ok tt w' /\ cont w' = delete p (cont w) /\
    (forall l, owned_block w p = Some l -> heap w' !! l = None) /\
    (forall l, owned_block w p <> Some l -> heap w' !! l = heap w !! l).
Proof.
  intros Hc. destruct (dtor_spec w p c Hc) as (w' & Hd & Hc' & Hh & _).
  exists w'. split; [exact Hd|]. split; [exact Hc'|]. split.
  - intros l Hl. rewrite Hh, Hl. apply lookup_delete_eq.
  - intros l Hl. rewrite Hh. destruct (owned_block w p) as [l'|]; [|done].
    apply lookup_delete_ne. congruence.
Qed.

(** Constructing a container from a callable at a fresh address and then
    destroying it leaves the containers and the heap as they were: a
    heap-stored payload is freed, nothing leaks. *)
Theorem from_dtor_no_leak (w w1 : world) (t : Tid) (v : val t) (p : nat) :
  cont w !! p = None -> heap w !! nexth w = None ->
  fn_from t v p w = Ok tt w1 ->
  exists w2, fn_dtor p w1 = Ok tt w2 /\ cont w2 = cont w /\ heap w2 = heap w.
Proof.
  intros Hp Hf H. pose proof (from_spec _ _ _ _ _ H) as Hc.
  destruct (from_world _ _ _ _ _ H) as (Fc & Hh & _).
  destruct (dtor_spec w1 p _ Hc) as (w2 & Hd & Hc2 & Hh2 & _).
  exists w2. split; [exact Hd|]. split.
  - apply map_eq. intros q. rewrite Hc2. destruct (decide (q = p)) as [->|Hq].
    + by rewrite lookup_delete_eq.
    + rewrite lookup_delete_ne by congruence. by apply Fc.
  - rewrite Hh2. destruct Hh as [(-> & ->)|(-> & ->)]; [done|].
    rewrite delete_insert_eq. by apply delete_id.
Qed.

(** Invoking a container that holds [o] returns what [o] returns and
    replaces [o] by its updated state; no other container and no heap
    object but its own block changes, and nothing is allocated. *)
Theorem apply_frame (w : world) (p : nat) (o : obj) (a : Arg) :
  contents w p = Some (Some o) ->
  exists w', fn_apply p a w = Ok (fst (call_obj o a)) w' /\
    contents w' p = Some (Some (snd (call_obj o a))) /\
    owned_block w' p = owned_block w p /\
    (forall q, q <> p -> cont w' !! q = cont w !! q) /\
    (forall l, owned_block w p <> Some l -> heap w' !! l = heap w !! l) /\
    nexth w' = nexth w /\ oom w' = oom w.
Proof.
  intros Hc. destruct (apply_spec w p o a Hc) as (w' & H1 & H2 & H3 & H4 & H5 & _ & H7 & H8).
  exists w'. by repeat split.
Qed.

(** Writing an object of type [t] through the pointer [target<t>()]
    returns replaces the held callable: later invocations call the new
    object. *)
Theorem target_store_apply (w : world) (p : nat) (o o' : obj) (x : ptr) :
  contents w p = Some (Some o) -> obj_type o' = obj_type o ->
  fn_target (obj_type o) p w = Ok (Some x) w ->
  exists w', store x o' w = Ok tt w' /\ contents w' p = Some (Some o') /\
    (forall a, observe (fn_apply p a w') = Returns (fst (call_obj o' a))).
Proof.
  intros Hc Ho' Ht. unfold contents in Hc.
  destruct (cont w !! p) as [[[t|] sm]|] eqn:E; try discriminate.
  unfold payload in Hc. simpl in Hc.
  destruct (fits_small t) eqn:Ef; destruct sm as [|o1|l]; simpl in Hc; try discriminate.
  - destruct (decide (obj_type o1 = t)) as [Ht1|]; [|discriminate]. injection Hc as ->.
    subst t. unfold fn_target in Ht. revert Ht. go. intros Ht. injection Ht as <-.
    assert (Hc' : contents (set_cont (<[p := mk_storage (Some (obj_type o)) (Inline o')]> (cont w)) w) p
                  = Some (Some o')).
    { unfold contents. simpl. rewrite lookup_insert_eq. go. reflexivity. }
    eexists. split. { unfold store. go. reflexivity. }
    split; [exact Hc'|]. intros a. exact (apply_contents _ _ _ a Hc').
  - destruct (heap w !! l) as [o1|] eqn:El; [|discriminate].
    destruct (decide (obj_type o1 = t)) as [Ht1|]; [|discriminate]. injection Hc as ->.
    subst t. unfold fn_target in Ht. revert Ht. go. intros Ht. injection Ht as <-.
    assert (Hc' : contents (set_heap (<[l := o']> (heap w)) w) p = Some (Some o')).
    { unfold contents. simpl. rewrite E. go. reflexivity. }
    eexists. split. { unfold store. go. reflexivity. }
    split; [exact Hc'|]. intros a. exact (apply_contents _ _ _ a Hc').
Qed.

(** A container constructed from a callable of type [t] converts to
    [true] and answers [target<t'>() != nullptr] exactly for [t' = t]. *)
Theorem from_observations (w w1 : world) (t : Tid) (v : val t) (p : nat) :
  fn_from t v p w = Ok tt w1 ->
  fn_bool p w1 = Ok true w1 /\
  (forall t', fn_target_nonnull t' p w1 = Ok (bool_decide (t = t')) w1).
Proof.
  intros H. pose proof (from_spec _ _ _ _ _ H) as Hc. split.
  - exact (bool_spec _ _ _ Hc).
  - intros t'. exact (target_nonnull_spec _ _ _ t' Hc).
Qed.

(** Swapping two distinct containers twice gives each its own callable
    back and leaves the heap as it was. *)
Theorem swap_twice (w : world) (a b : nat) (ca cb : option obj) :
  a <> b -> locals_fresh w ->
  contents w a = Some ca -> contents w b = Some cb ->
  exists w2, (let* _ := fn_swap a b in fn_swap a b) w = Ok tt w2 /\
    contents w2 a = Some ca /\ contents w2 b = Some cb /\ heap w2 = heap w.
Proof.
  intros Hab Hf Ha Hb.
  pose proof (live_below _ _ _ Hf Ha) as La. pose proof (live_below _ _ _ Hf Hb) as Lb.
  destruct (swap_spec w a b ca cb Hab Hf Ha Hb) as (w1 & S1 & A1 & B1 & _ & _ & H1 & N1 & _ & _ & F1).
  assert (Hf1 : locals_fresh w1) by (apply (swap_keeps_fresh w w1 a b); done).
  destruct (swap_spec w1 a b cb ca Hab Hf1 A1 B1) as (w2 & S2 & A2 & B2 & _ & _ & H2 & _).
  exists w2. split; [|split; [done|split; [done|congruence]]].
  unfold fn_swap. rewrite (bind_Ok_eq _ _ _ _ _ (noexcept_Ok _ _ _ _ S1)).
  exact (noexcept_Ok _ _ _ _ S2).
Qed.


(** A successful copy assignment [p = q] between distinct containers
    leaves both holding [q]'s callable, frees the heap block [p] owned,
    touches no other heap object but the block of the new copy, and
    changes no other container. *)
Theorem copy_assign_replaces (w w' : world) (p q : nat) (cp cq : option obj) :
  p <> q -> locals_fresh w -> heap w !! nexth w = None ->
  contents w p = Some cp -> contents w q = Some cq ->
  (forall l, owned_block w p = Some l -> owned_block w q <> Some l) ->
  fn_copy_assign p q w = Ok tt w' ->
  contents w' p = Some cq /\ contents w' q = Some cq /\
  (forall l, owned_block w p = Some l -> heap w' !! l = None) /\
  (forall l, owned_block w p <> Some l -> l <> nexth w -> heap w' !! l = heap w !! l) /\
  (forall r, r <> p -> cont w' !! r = cont w !! r).
Proof.
  intros Hpq Hf Hfr Hp Hq Hsep H.
  pose proof (live_below _ _ _ Hf Hp) as Lp. pose proof (live_below _ _ _ Hf Hq) as Lq.
  set (tmp := nextc w) in *.
  set (w1 := mk_world (cont w) (heap w) (S tmp) (nexth w) (oom w)).
  assert (H1q : contents w1 q = Some cq) by (rewrite <- Hq; by apply contents_frame).
  pose proof (copy_ctor_spec w1 tmp q cq ltac:(lia) H1q Hfr) as C.
  unfold fn_copy_assign in H. rewrite decide_False in H by congruence.
  rewrite (bind_Ok_eq fresh_addr _ w tmp w1) in H by reflexivity.
  destruct (fn_copy_ctor tmp q w1) as [u w2|e w2|] eqn:E.
  2: { rewrite (bind_Exn_eq _ _ _ _ _ E) in H. discriminate. }
  2: { unfold bind in H. rewrite E in H. discriminate. }
  destruct C as (C1 & C2 & C3 & C4 & C5 & C6).
  rewrite (bind_Ok_eq _ _ _ _ _ E) in H.
  assert (Hf2 : locals_fresh w2).
  { intros r Hr. rewrite C5 in Hr. simpl in Hr. rewrite C6 by lia. apply Hf. lia. }
  assert (Nl : forall r c l, contents w r = Some c -> owned_block w r = Some l -> l <> nexth w).
  { intros r c l Hc Hl ->. destruct (owned_allocated _ _ _ _ Hc Hl) as [o Ho]. congruence. }
  assert (H2p : contents w2 p = Some cp).
  { rewrite <- Hp. apply contents_frame; [rewrite C6 by lia; reflexivity|].
    intros l Hl. apply C4. exact (Nl _ _ _ Hp Hl). }
  assert (Ow2p : owned_block w2 p = owned_block w p)
    by (apply owned_block_frame; rewrite C6 by lia; reflexivity).
  destruct (swap_spec w2 p tmp cp cq ltac:(lia) Hf2 H2p C1)
    as (w3 & S3 & A3 & T3 & Op3 & Ot3 & Hh3 & _ & _ & _ & F3).
  assert (Hs : fn_swap p tmp w2 = Ok tt w3) by (unfold fn_swap; exact (noexcept_Ok _ _ _ _ S3)).
  rewrite (bind_Ok_eq _ _ _ _ _ Hs) in H.
  destruct (dtor_spec w3 tmp cp T3) as (w4 & D4 & Hc4 & Hh4 & _).
  unfold fn_dtor in H. rewrite D4 in H. injection H as <-.
  rewrite Ot3, Ow2p in Hh4.
  split; [|split; [|split; [|split]]].
  - rewrite <- A3. apply contents_frame; [by rewrite Hc4, lookup_delete_ne by lia|].
    intros l Hl. rewrite Op3 in Hl. apply C3 in Hl. subst l. rewrite Hh4.
    destruct (owned_block w p) as [l'|] eqn:Ol; [|done].
    rewrite lookup_delete_ne; [done|]. exact (Nl _ _ _ Hp Ol).
  - rewrite <- Hq. apply contents_frame.
    + rewrite Hc4, lookup_delete_ne by lia. rewrite F3 by lia. rewrite C6 by lia. reflexivity.
    + intros l Hl. rewrite Hh4.
      assert (Hl' : heap w3 !! l = heap w !! l)
        by (rewrite Hh3; apply C4; exact (Nl _ _ _ Hq Hl)).
      destruct (owned_block w p) as [l'|] eqn:Ol; [|done].
      rewrite lookup_delete_ne; [done|]. intros ->. first [exact (Hsep _ Ol Hl) | exact (Hsep _ eq_refl Hl)].
  - intros l Hl. rewrite Hh4, Hl. apply lookup_delete_eq.
  - intros l Hl Hn. rewrite Hh4.
    assert (Hl' : heap w3 !! l = heap w !! l) by (rewrite Hh3; by apply C4).
    destruct (owned_block w p) as [l'|] eqn:Ol; [|done].
    rewrite lookup_delete_ne; [done|]. congruence.
  - intros r Hr. rewrite Hc4. destruct (decide (r = tmp)) as [->|Hrt].
    + rewrite lookup_delete_eq. symmetry. apply Hf. lia.
    + rewrite lookup_delete_ne by congruence. rewrite F3 by done. rewrite C6 by done. reflexivity.
Qed.

(** Move assignment [p = std::move(q)] between distinct containers, in
    any states, succeeds: [p] then holds what [q] held, [q] is empty, the
    heap block [p] owned is freed, nothing is allocated or copied, and no
    other container changes. *)
Theorem move_assign_replaces (w : world) (p q : nat) (cp cq : option obj) :
  p <> q -> locals_fresh w ->
  contents w p = Some cp -> contents w q = Some cq ->
  (forall l, owned_block w p = Some l -> owned_block w q <> Some l) ->
  exists w', fn_move_assign p q w = Ok tt w' /\
    contents w' p = Some cq /\ contents w' q = Some None /\
    (forall l, owned_block w p = Some l -> heap w' !! l = None) /\
    (forall l, owned_block w p <> Some l -> heap w' !! l = heap w !! l) /\
    nexth w' = nexth w /\
    (forall r, r <> p -> r <> q -> cont w' !! r = cont w !! r).
Proof.
  intros Hpq Hf Hp Hq Hsep.
  pose proof (live_below _ _ _ Hf Hp) as Lp. pose proof (live_below _ _ _ Hf Hq) as Lq.
  set (tmp := nextc w) in *.
  set (w1 := mk_world (cont w) (heap w) (S tmp) (nexth w) (oom w)).
  assert (H1q : contents w1 q = Some cq) by (rewrite <- Hq; by apply contents_frame).
  destruct (move_ctor_spec w1 tmp q cq ltac:(lia) H1q)
    as (w2 & Hm & T2 & Q2 & Ot2 & Hh2 & N2 & X2 & _ & F2).
  assert (Hf2 : locals_fresh w2).
  { intros r Hr. rewrite N2 in Hr. simpl in Hr. rewrite F2 by lia. apply Hf. lia. }
  assert (H2p : contents w2 p = Some cp).
  { rewrite <- Hp. apply contents_frame; [rewrite F2 by lia; reflexivity|].
    intros l _. by rewrite Hh2. }
  assert (Ow2p : owned_block w2 p = owned_block w p)
    by (apply owned_block_frame; rewrite F2 by lia; reflexivity).
  destruct (swap_spec w2 p tmp cp cq ltac:(lia) Hf2 H2p T2)
    as (w3 & S3 & A3 & T3 & Op3 & Ot3 & Hh3 & _ & X3 & _ & F3).
  destruct (dtor_spec w3 tmp cp T3) as (w4 & D4 & Hc4 & Hh4 & _ & X4 & _).
  rewrite Ot3, Ow2p in Hh4.
  exists w4. split.
  { unfold fn_move_assign. apply noexcept_Ok.
    rewrite decide_False by congruence.
    rewrite (bind_Ok_eq fresh_addr _ w tmp w1) by reflexivity.
    rewrite (bind_Ok_eq _ _ _ _ _ Hm).
    rewrite (bind_Ok_eq _ _ _ _ _ (noexcept_Ok _ _ _ _ S3)).
    exact D4. }
  split; [|split; [|split; [|split; [|split]]]].
  - rewrite <- A3. apply contents_frame; [by rewrite Hc4, lookup_delete_ne by lia|].
    intros l Hl. rewrite Op3, Ot2, (owned_block_frame w w1 q) in Hl by reflexivity.
    rewrite Hh4. destruct (owned_block w p) as [l'|] eqn:Ol; [|done].
    rewrite lookup_delete_ne; [done|]. intros ->. first [exact (Hsep _ Ol Hl) | exact (Hsep _ eq_refl Hl)].
  - rewrite <- Q2. apply contents_frame.
    + rewrite Hc4, lookup_delete_ne by lia. apply F3; lia.
    + intros l Hl. by rewrite (owned_block_empty _ _ Q2) in Hl.
  - intros l Hl. rewrite Hh4, Hl. apply lookup_delete_eq.
  - intros l Hl. rewrite Hh4, Hh3, Hh2.
    destruct (owned_block w p) as [l'|] eqn:Ol; [|done].
    rewrite lookup_delete_ne; [done|]. congruence.
  - rewrite X4, X3, X2. reflexivity.
  - intros r Hr Hrq. rewrite Hc4. destruct (decide (r = tmp)) as [->|Hrt].
    + rewrite lookup_delete_eq. symmetry. apply Hf. lia.
    + rewrite lookup_delete_ne by congruence. rewrite F3 by done. rewrite F2 by done. reflexivity.
Qed.

End Extras.

(** * Runs on the [int(int)] instance *)
Module Examples.
Import Demo.

Example adder_small : fits_small Adder = true.
Proof. reflexivity. Qed.
Example pair_large : fits_small Pair = false.
Proof. reflexivity. Qed.
Example fragile_large : fits_small Fragile = false.
Proof. reflexivity. Qed.

(** The scenario of the spec: [k = 5], [f(10) = 15]; a copy gives
    [g(3) = 8] and the original still gives [15] on [10]. *)
Example scenario :
  observe ((let* _ := fn_from Adder 5%Z 0 in
            let* r1 := fn_apply 0 10%Z in
            let* _ := fn_copy_ctor 1 0 in
            let* r2 := fn_apply 1 3%Z in
            let* r3 := fn_apply 0 10%Z in
            ret (r1, r2, r3)) w0) = Returns (15%Z, 8%Z, 15%Z).
Proof. vm_compute. reflexivity. Qed.

(** A copied [Counter] counts on its own. *)
Example counter_copy :
  observe ((let* _ := fn_from Counter 0%Z 0 in
            let* _ := fn_apply 0 0%Z in
            let* _ := fn_copy_ctor 1 0 in
            let* r1 := fn_apply 1 0%Z in
            let* r2 := fn_apply 1 0%Z in
            let* r3 := fn_apply 0 0%Z in
            ret (r1, r2, r3)) w0) = Returns (1%Z, 2%Z, 1%Z).
Proof. vm_compute. reflexivity. Qed.

End Examples.

(** * [init] under a failing allocation *)
Module Bugs.
Import Demo.

(** The next [operator new] raises [std::bad_alloc]. *)
Definition w_oom : world := mk_world ∅ ∅ 10 0 [true].

(** A container at 0 holding a [Pair] on the heap and an empty one at 1,
    with the next allocation failing. *)
Definition w_copy_oom : world :=
  mk_world (<[0 := mk_storage (get_descriptor Pair) (Ptr 0)]>
              (<[1 := mk_storage get_empty_func_descriptor Garbage]> ∅))
           (<[0 := existT Pair (1%Z, 2%Z)]> ∅) 10 1 [true].

(** C5 (descriptor and payload installed together): [init] stores
    [get_descriptor<Pair>()] before [new Pair(...)] runs.  When the
    allocation raises, the storage names [Pair] while its bytes hold no
    pointer to a [Pair] (not a well-formed container), and [function(F)]
    then runs the storage destructor, which deletes that indeterminate
    pointer: undefined behaviour.  The [copy] entry of the same
    descriptor, which sets [desc] only after constructing, leaves the
    destination empty under the same failure. *)
Theorem init_sets_descriptor_before_payload :
  match init Pair (1%Z, 2%Z) 0
          (set_cont (<[0 := mk_storage get_empty_func_descriptor Garbage]> ∅) w_oom) with
  | Exn BadAlloc w2 =>
      cont w2 !! 0 = Some (mk_storage (get_descriptor Pair) Garbage) /\
      contents w2 0 = None
  | _ => False
  end /\
  fn_from Pair (1%Z, 2%Z) 0 w_oom = Stuck /\
  match copy (descriptor Pair) 1 0 w_copy_oom with
  | Exn BadAlloc w2 => contents w2 1 = Some None /\ contents w2 0 = contents w_copy_oom 0
  | _ => False
  end.
Proof. vm_compute. repeat split; reflexivity. Qed.

End Bugs.

(** * Instances of the properties *)
Module Witnesses.
Import Demo.

(** The world a run ends in. *)
Definition final {X} (r : res X) (d : world) : world :=
  match r with Ok _ w => w | Exn _ w => w | Stuck => d end.

Definition oP : obj := existT Pair (1%Z, 2%Z).
Definition oA : obj := existT Adder 5%Z.
Definition oF : obj := existT Fragile 7%Z.

(** A [Pair] at 0, on the heap. *)
Definition wP : world :=
  mk_world (<[0 := mk_storage (get_descriptor Pair) (Ptr 0)]> ∅)
           (<[0 := oP]> ∅) 10 1 [].

(** A [Pair] at 0 and an [Adder] at 1, inline. *)
Definition wQ : world :=
  mk_world (<[0 := mk_storage (get_descriptor Pair) (Ptr 0)]>
              (<[1 := mk_storage (get_descriptor Adder) (Inline oA)]> ∅))
           (<[0 := oP]> ∅) 10 1 [].

(** A [Fragile] at 0, on the heap, and an [Adder] at 1. *)
Definition wF : world :=
  mk_world (<[0 := mk_storage (get_descriptor Fragile) (Ptr 0)]>
              (<[1 := mk_storage (get_descriptor Adder) (Inline oA)]> ∅))
           (<[0 := oF]> ∅) 10 1 [].

Lemma wP_fresh : locals_fresh wP.
Proof. intros q Hq. simpl in *. rewrite lookup_insert_ne by lia. apply lookup_empty. Qed.

Lemma wQ_fresh : locals_fresh wQ.
Proof. intros q Hq. simpl in *. rewrite !lookup_insert_ne by lia. apply lookup_empty. Qed.

Lemma wF_fresh : locals_fresh wF.
Proof. intros q Hq. simpl in *. rewrite !lookup_insert_ne by lia. apply lookup_empty. Qed.

Lemma C1_witness :
  fn_from Pair (1%Z, 2%Z) 0 w0 = Ok tt wP /\
  observe (fn_apply 0 3%Z wP) = Returns 5%Z /\ observe (fn_call 0 3%Z wP) = Returns 5%Z.
Proof.
  assert (H : fn_from Pair (1%Z, 2%Z) 0 w0 = Ok tt wP) by (vm_compute; reflexivity).
  split; [exact H|].
  exact (roundtrip_identity w0 wP Pair (1%Z, 2%Z) 0 3%Z H).
Defined.

Lemma C2_witness :
  let w1 := set_cont (<[0 := mk_storage get_empty_func_descriptor Garbage]> (cont w0)) w0 in
  fn_apply 0 3%Z w1 = Exn BadFunctionCall w1 /\ fn_bool 0 w1 = Ok false w1 /\
  1 <> 0 /\ succeeds (fn_copy_ctor 1 0 w1) = true.
Proof.
  destruct (empty_invocation w0 0 3%Z Adder) as (_ & Ha & _ & Hb & _ & Hq & _).
  split; [exact Ha|]. split; [exact Hb|]. split; [lia|].
  exact (proj1 (Hq 1 ltac:(lia))).
Defined.

Lemma C3_witness :
  contents wQ 0 = Some (Some oP) /\ 0 <> 1 /\ contents wQ 1 = Some (Some oA) /\
  exists w', fn_move_assign 1 0 wQ = Ok tt w' /\
    contents w' 0 = Some None /\ contents w' 1 = Some (Some oP).
Proof.
  assert (H0 : contents wQ 0 = Some (Some oP)) by (vm_compute; reflexivity).
  assert (H1 : contents wQ 1 = Some (Some oA)) by (vm_compute; reflexivity).
  split; [exact H0|]. split; [lia|]. split; [exact H1|].
  destruct (move_empties_source wQ 0 1 oP H0 ltac:(lia)) as [_ Hassign].
  destruct (Hassign (Some oA) H1 wQ_fresh) as (w' & Hm & E0 & E1 & _).
  { intros l _ H. vm_compute in H. discriminate. }
  exists w'. split; [exact Hm|]. split; [exact E0|exact E1].
Defined.

Lemma C4_witness :
  contents wP 0 = Some (Some oP) /\ 0 <> 1 /\ heap wP !! nexth wP = None /\
  fn_copy_ctor 1 0 wP = Ok tt (final (fn_copy_ctor 1 0 wP) wP) /\
  contents (final (fn_copy_ctor 1 0 wP) wP) 1 = Some (Some oP).
Proof.
  assert (H0 : contents wP 0 = Some (Some oP)) by (vm_compute; reflexivity).
  assert (Hf : heap wP !! nexth wP = None) by (vm_compute; reflexivity).
  assert (Hc : fn_copy_ctor 1 0 wP = Ok tt (final (fn_copy_ctor 1 0 wP) wP))
    by (vm_compute; reflexivity).
  split; [exact H0|]. split; [lia|]. split; [exact Hf|]. split; [exact Hc|].
  exact (proj1 (proj2 (copy_independence wP _ 0 1 oP H0 ltac:(lia) Hf Hc))).
Defined.

Lemma C6_witness :
  contents wP 0 = Some (Some oP) /\
  exists r, fn_target Pair 0 wP = Ok r wP /\ is_Some r.
Proof.
  assert (H0 : contents wP 0 = Some (Some oP)) by (vm_compute; reflexivity).
  split; [exact H0|].
  destruct (target_identity wP 0 (Some oP) Pair H0) as ((r & Ht & Hi & _) & _ & _).
  exists r. split; [exact Ht|]. apply Hi. by exists oP.
Defined.

Lemma C7_witness :
  contents wQ 0 = Some (Some oP) /\ contents wQ 1 = Some (Some oA) /\
  exists w', fn_swap 0 1 wQ = Ok tt w' /\
    contents w' 0 = Some (Some oA) /\ contents w' 1 = Some (Some oP).
Proof.
  assert (H0 : contents wQ 0 = Some (Some oP)) by (vm_compute; reflexivity).
  assert (H1 : contents wQ 1 = Some (Some oA)) by (vm_compute; reflexivity).
  split; [exact H0|]. split; [exact H1|].
  destruct (swap_symmetry wQ 0 1 _ _ ltac:(lia) wQ_fresh H0 H1) as (w' & Hs & E0 & E1 & _).
  exists w'. split; [exact Hs|]. split; [exact E0|exact E1].
Defined.

Lemma C8_witness :
  let wt := mk_world (cont wF) (heap wF) (S (nextc wF)) (nexth wF) (oom wF) in
  fn_copy_ctor (nextc wF) 0 wt = Exn UserThrow (final (fn_copy_ctor (nextc wF) 0 wt) wF) /\
  fn_copy_assign 1 0 wF = Exn UserThrow (final (fn_copy_ctor (nextc wF) 0 wt) wF) /\
  contents (final (fn_copy_ctor (nextc wF) 0 wt) wF) 1 = Some (Some oA).
Proof.
  intros wt.
  assert (H1 : contents wF 1 = Some (Some oA)) by (vm_compute; reflexivity).
  assert (H0 : contents wF 0 = Some (Some oF)) by (vm_compute; reflexivity).
  assert (Hf : heap wF !! nexth wF = None) by (vm_compute; reflexivity).
  assert (Hx : fn_copy_ctor (nextc wF) 0 wt = Exn UserThrow (final (fn_copy_ctor (nextc wF) 0 wt) wF))
    by (vm_compute; reflexivity).
  destruct (copy_assign_strong wF _ 1 0 _ _ UserThrow H1 H0 ltac:(lia) wF_fresh Hf Hx)
    as (Ha & _ & _ & Hc & _).
  split; [exact Hx|]. split; [exact Ha|exact Hc].
Defined.

Lemma C10_witness :
  contents wP 0 = Some (Some oP) /\
  exists w', fn_swap 0 0 wP = Ok tt w' /\ contents w' 0 = Some (Some oP).
Proof.
  assert (H0 : contents wP 0 = Some (Some oP)) by (vm_compute; reflexivity).
  split; [exact H0|].
  destruct (self_swap wP 0 _ wP_fresh H0) as (w' & Hs & E & _).
  exists w'. split; [exact Hs|exact E].
Defined.

End Witnesses.

(** * Instances of the further properties *)
Module ExtraWitnesses.
Import Demo Witnesses.

Lemma X1_witness :
  2 <> 0 /\ contents wF 0 = Some (Some oF) /\
  exists w', fn_move_ctor 2 0 wF = Ok tt w' /\
    contents w' 2 = Some (Some oF) /\ contents w' 0 = Some None /\ heap w' = heap wF.
Proof.
  assert (H0 : contents wF 0 = Some (Some oF)) by (vm_compute; reflexivity).
  split; [lia|]. split; [exact H0|].
  destruct (move_ctor_no_alloc wF 2 0 _ ltac:(lia) H0) as (w' & Hm & E2 & E0 & _ & Hh & _).
  exists w'. by repeat split.
Defined.

Lemma X2_witness :
  2 <> 0 /\ contents wF 0 = Some (Some oF) /\ heap wF !! nexth wF = None /\
  match fn_copy_ctor 2 0 wF with
  | Exn _ w' => cont w' = delete 2 (cont wF) /\ heap w' = heap wF
  | _ => False
  end.
Proof.
  assert (H0 : contents wF 0 = Some (Some oF)) by (vm_compute; reflexivity).
  assert (Hf : heap wF !! nexth wF = None) by (vm_compute; reflexivity).
  split; [lia|]. split; [exact H0|]. split; [exact Hf|].
  pose proof (copy_ctor_outcome wF 2 0 _ ltac:(lia) H0 Hf) as H.
  assert (E : fn_copy_ctor 2 0 wF = Exn UserThrow (final (fn_copy_ctor 2 0 wF) wF))
    by (vm_compute; reflexivity).
  rewrite E in H |- *. exact H.
Defined.

Lemma X3_witness :
  contents wF 0 = Some (Some oF) /\
  fn_copy_ctor 2 0 wF = Exn UserThrow (final (fn_copy_ctor 2 0 wF) wF) /\
  copy_throws (projT1 oF) (projT2 oF) = true.
Proof.
  assert (H0 : contents wF 0 = Some (Some oF)) by (vm_compute; reflexivity).
  assert (E : fn_copy_ctor 2 0 wF = Exn UserThrow (final (fn_copy_ctor 2 0 wF) wF))
    by (vm_compute; reflexivity).
  split; [exact H0|]. split; [exact E|].
  destruct (copy_ctor_raises wF _ 2 0 _ UserThrow ltac:(lia) H0 E)
    as (o & Ho & [(_ & Hoom & _)|(Hct & _)]).
  - vm_compute in Hoom. discriminate.
  - injection Ho as <-. exact Hct.
Defined.

Lemma X4_witness :
  contents wP 0 = Some (Some oP) /\ owned_block wP 0 = Some 0 /\
  exists w', fn_dtor 0 wP = Ok tt w' /\ cont w' !! 0 = None /\ heap w' !! 0 = None.
Proof.
  assert (H0 : contents wP 0 = Some (Some oP)) by (vm_compute; reflexivity).
  assert (Ob : owned_block wP 0 = Some 0) by (vm_compute; reflexivity).
  split; [exact H0|]. split; [exact Ob|].
  destruct (dtor_frees_owned_block wP 0 _ H0) as (w' & Hd & Hc & Hfree & _).
  exists w'. split; [exact Hd|]. split; [rewrite Hc; apply lookup_delete_eq|exact (Hfree 0 Ob)].
Defined.

Lemma X5_witness :
  cont w0 !! 0 = None /\ heap w0 !! nexth w0 = None /\
  fn_from Pair (1%Z, 2%Z) 0 w0 = Ok tt wP /\
  exists w2, fn_dtor 0 wP = Ok tt w2 /\ cont w2 = cont w0 /\ heap w2 = heap w0.
Proof.
  assert (Hp : cont w0 !! 0 = None) by reflexivity.
  assert (Hf : heap w0 !! nexth w0 = None) by reflexivity.
  assert (H : fn_from Pair (1%Z, 2%Z) 0 w0 = Ok tt wP) by (vm_compute; reflexivity).
  split; [exact Hp|]. split; [exact Hf|]. split; [exact H|].
  exact (from_dtor_no_leak w0 wP Pair (1%Z, 2%Z) 0 Hp Hf H).
Defined.

Lemma X6_witness :
  contents wQ 0 = Some (Some oP) /\
  exists w', fn_apply 0 3%Z wQ = Ok 5%Z w' /\ cont w' !! 1 = cont wQ !! 1.
Proof.
  assert (H0 : contents wQ 0 = Some (Some oP)) by (vm_compute; reflexivity).
  split; [exact H0|].
  destruct (apply_frame wQ 0 oP 3%Z H0) as (w' & Ha & _ & _ & Fq & _).
  exists w'. split; [exact Ha|]. apply Fq. lia.
Defined.

Lemma X7_witness :
  let o' : obj := existT Pair (2%Z, 0%Z) in
  contents wP 0 = Some (Some oP) /\ obj_type o' = obj_type oP /\
  fn_target (obj_type oP) 0 wP = Ok (Some (PHeap 0)) wP /\
  exists w', store (PHeap 0) o' wP = Ok tt w' /\
    observe (fn_apply 0 3%Z w') = Returns 6%Z.
Proof.
  intros o'.
  assert (H0 : contents wP 0 = Some (Some oP)) by (vm_compute; reflexivity).
  assert (Ht : obj_type o' = obj_type oP) by reflexivity.
  assert (Hg : fn_target (obj_type oP) 0 wP = Ok (Some (PHeap 0)) wP) by (vm_compute; reflexivity).
  split; [exact H0|]. split; [exact Ht|]. split; [exact Hg|].
  destruct (target_store_apply wP 0 oP o' (PHeap 0) H0 Ht Hg) as (w' & Hs & _ & Ha).
  exists w'. split; [exact Hs|]. exact (Ha 3%Z).
Defined.

Lemma X8_witness :
  fn_from Pair (1%Z, 2%Z) 0 w0 = Ok tt wP /\
  fn_bool 0 wP = Ok true wP /\ fn_target_nonnull Adder 0 wP = Ok false wP.
Proof.
  assert (H : fn_from Pair (1%Z, 2%Z) 0 w0 = Ok tt wP) by (vm_compute; reflexivity).
  split; [exact H|].
  destruct (from_observations w0 wP Pair (1%Z, 2%Z) 0 H) as (Hb & Ht).
  split; [exact Hb|]. rewrite (Ht Adder). vm_compute. reflexivity.
Defined.

Lemma X9_witness :
  0 <> 1 /\ contents wQ 0 = Some (Some oP) /\ contents wQ 1 = Some (Some oA) /\
  exists w2, (let* _ := fn_swap 0 1 in fn_swap 0 1) wQ = Ok tt w2 /\
    contents w2 0 = Some (Some oP) /\ contents w2 1 = Some (Some oA).
Proof.
  assert (H0 : contents wQ 0 = Some (Some oP)) by (vm_compute; reflexivity).
  assert (H1 : contents wQ 1 = Some (Some oA)) by (vm_compute; reflexivity).
  split; [lia|]. split; [exact H0|]. split; [exact H1|].
  destruct (swap_twice wQ 0 1 _ _ ltac:(lia) wQ_fresh H0 H1) as (w2 & Hs & E0 & E1 & _).
  exists w2. by repeat split.
Defined.

Lemma X10_witness :
  contents wQ 0 = Some (Some oP) /\ contents wQ 1 = Some (Some oA) /\
  heap wQ !! nexth wQ = None /\ owned_block wQ 0 = Some 0 /\
  fn_copy_assign 0 1 wQ = Ok tt (final (fn_copy_assign 0 1 wQ) wQ) /\
  contents (final (fn_copy_assign 0 1 wQ) wQ) 0 = Some (Some oA) /\
  heap (final (fn_copy_assign 0 1 wQ) wQ) !! 0 = None.
Proof.
  assert (H0 : contents wQ 0 = Some (Some oP)) by (vm_compute; reflexivity).
  assert (H1 : contents wQ 1 = Some (Some oA)) by (vm_compute; reflexivity).
  assert (Hf : heap wQ !! nexth wQ = None) by (vm_compute; reflexivity).
  assert (Ob : owned_block wQ 0 = Some 0) by (vm_compute; reflexivity).
  assert (Ha : fn_copy_assign 0 1 wQ = Ok tt (final (fn_copy_assign 0 1 wQ) wQ))
    by (vm_compute; reflexivity).
  do 5 (split; [assumption|]).
  destruct (copy_assign_replaces wQ (final (fn_copy_assign 0 1 wQ) wQ) 0 1 _ _ ltac:(lia) wQ_fresh Hf H0 H1) as (E0 & _ & Hfree & _).
  { intros l _ H. vm_compute in H. discriminate. }
  { exact Ha. }
  split; [exact E0|exact (Hfree 0 Ob)].
Defined.

Lemma X11_witness :
  contents wQ 0 = Some (Some oP) /\ contents wQ 1 = Some (Some oA) /\
  owned_block wQ 0 = Some 0 /\
  exists w', fn_move_assign 0 1 wQ = Ok tt w' /\
    contents w' 0 = Some (Some oA) /\ contents w' 1 = Some None /\ heap w' !! 0 = None.
Proof.
  assert (H0 : contents wQ 0 = Some (Some oP)) by (vm_compute; reflexivity).
  assert (H1 : contents wQ 1 = Some (Some oA)) by (vm_compute; reflexivity).
  assert (Ob : owned_block wQ 0 = Some 0) by (vm_compute; reflexivity).
  do 3 (split; [assumption|]).
  destruct (move_assign_replaces wQ 0 1 _ _ ltac:(lia) wQ_fresh H0 H1)
    as (w' & Hm & E0 & E1 & Hfree & _).
  { intros l _ H. vm_compute in H. discriminate. }
  exists w'. split; [exact Hm|]. split; [exact E0|]. split; [exact E1|exact (Hfree 0 Ob)].
Defined.

End ExtraWitnesses.
